(** * quinnbot: status aggregation, polling cache, settings store, update webhook

    A shallow embedding of [bot.py] and [update_webhook.py].

    - [PyDict]: Python's insertion-ordered [dict] with [str] keys.
    - [Py]: the values [json.loads] produces, the exceptions the code can
      raise on them, and the few built-ins the code applies to them.
    - [Monitor]: [fetch_uptime_kuma_status].
    - [Polling]: [update_status_loop] and the cache [cached_program_status].
    - [Settings]: [server_settings], [/setup] and the subscription buttons.
    - [Webhook]: [handle_webhook]. *)

From Stdlib Require QArith.
From stdpp Require Import base option list numbers strings pretty gmap.

Local Open Scope string_scope.
Local Open Scope Z_scope.

#[local] Set Warnings "-register-all".

(** ** Python dictionaries *)

(** A [dict] with [str] keys keeps its items in insertion order; assigning to
    a key that is present replaces the value and keeps the key's position. *)
Module PyDict.

Section dict.
Context {V : Type}.

Fixpoint dict_get (k : string) (d : list (string * V)) : option V :=
  match d with
  | [] => None
  | (k', v) :: d' => if decide (k = k') then Some v else dict_get k d'
  end.

(** [d[k] = v] *)
Fixpoint dict_set (k : string) (v : V) (d : list (string * V))
  : list (string * V) :=
  match d with
  | [] => [(k, v)]
  | (k', v') :: d' =>
      if decide (k = k') then (k, v) :: d' else (k', v') :: dict_set k v d'
  end.

Definition dict_keys (d : list (string * V)) : list string := d.*1.

(** [bool(d)]: a dict is truthy when it is not empty. *)
Definition dict_truthy (d : list (string * V)) : bool :=
  match d with [] => false | _ :: _ => true end.

(** The dict that results from assigning the pairs one after the other. *)
Definition dict_of_pairs (ps : list (string * V)) : list (string * V) :=
  foldl (λ d p, dict_set p.1 p.2 d) [] ps.

End dict.

End PyDict.
Export PyDict.

(** ** Python values and exceptions *)

Module Py.

(** A [float]: a finite one is kept by its exact value; [json.loads] also
    accepts [NaN], [Infinity] and [-Infinity]. *)
Inductive float : Type :=
  | FNaN
  | FInfinity (negative : bool)
  | FFinite (q : QArith_base.Q).

(** What [json.loads] returns.  A JSON object carries its members as they
    are written in the document; [as_dict] assigns them one after the other,
    so that a repeated key keeps its first position and its last value.
    A number without fraction or exponent is an [int], any other a [float]. *)
Inductive json : Type :=
  | JNull
  | JBool (b : bool)
  | JInt (n : Z)
  | JFloat (x : float)
  | JStr (s : string)
  | JList (l : list json)
  | JDict (members : list (string * json)).

Inductive exn : Type :=
  | AttributeError   (* [x.get], [x.items] on a value that has no such method *)
  | TypeError        (* iterating, [len] or indexing a value that allows none *)
  | KeyError
  | IndexError
  | ContentTypeError (* [response.json()] on a body that is not JSON *)
  | ClientError      (* [session.get] raised: connection error or timeout *)
  | OSError.         (* [open] or [json.dump] failed on the settings file *)

Inductive result (A : Type) : Type :=
  | Ok (a : A)
  | Raise (e : exn).
Arguments Ok {A} a.
Arguments Raise {A} e.

#[export] Instance result_ret : MRet result := λ A a, Ok a.
#[export] Instance result_bind : MBind result := λ A B f m,
  match m with Ok a => f a | Raise e => Raise e end.

(** A [for] loop whose body updates an accumulator and may raise. *)
Fixpoint foldM {A B : Type} (f : B → A → result B) (acc : B) (l : list A)
  : result B :=
  match l with
  | [] => Ok acc
  | x :: l' => acc' ← f acc x; foldM f acc' l'
  end.

Definition as_dict (j : json) : option (list (string * json)) :=
  match j with JDict members => Some (dict_of_pairs members) | _ => None end.

(** [bool(s)] for a [str]. *)
Definition str_truthy (s : string) : bool :=
  match s with EmptyString => false | String _ _ => true end.

(** [bool(j)] *)
Definition py_truthy (j : json) : bool :=
  match j with
  | JNull => false
  | JBool b => b
  | JInt n => negb (n =? 0)
  | JFloat (FFinite q) =>
      negb (QArith_base.Qeq_bool q (QArith_base.inject_Z 0))
  | JFloat _ => true
  | JStr s => str_truthy s
  | JList l => match l with [] => false | _ :: _ => true end
  | JDict members => dict_truthy (dict_of_pairs members)
  end.

(** [j == n] for an [int] literal [n]; [True == 1], [False == 0] and
    [1.0 == 1] hold in Python, and no string, list, dict or [None] equals an
    [int]. *)
Definition py_eq_int (j : json) (n : Z) : bool :=
  match j with
  | JInt m => m =? n
  | JBool b => (if b then 1 else 0) =? n
  | JFloat (FFinite q) => QArith_base.Qeq_bool q (QArith_base.inject_Z n)
  | _ => false
  end.

(** [j == s] for a [str] [s]. *)
Definition py_eq_str (j : json) (s : string) : bool :=
  match j with JStr s' => bool_decide (s' = s) | _ => false end.

(** [str(j)]; [repr] gives the text of a float, list or dict. *)
Definition py_str (repr : json → string) (j : json) : string :=
  match j with
  | JNull => "None"
  | JBool true => "True"
  | JBool false => "False"
  | JInt n => pretty n
  | JStr s => s
  | JFloat _ | JList _ | JDict _ => repr j
  end.

(** [j.get(key, default)] *)
Definition py_get (key : string) (default : json) (j : json) : result json :=
  match as_dict j with
  | Some d => Ok (match dict_get key d with Some v => v | None => default end)
  | None => Raise AttributeError
  end.

(** [j.items()] *)
Definition py_items (j : json) : result (list (string * json)) :=
  match as_dict j with
  | Some d => Ok d
  | None => Raise AttributeError
  end.

Definition chars (s : string) : list json :=
  (λ c, JStr (String c EmptyString)) <$> String.list_ascii_of_string s.

(** The elements [for x in j] goes through: the items of a list, the
    characters of a [str], the keys of a dict. *)
Definition py_iter (j : json) : result (list json) :=
  match j with
  | JList l => Ok l
  | JStr s => Ok (chars s)
  | JDict members => Ok (JStr <$> dict_keys (dict_of_pairs members))
  | JNull | JBool _ | JInt _ | JFloat _ => Raise TypeError
  end.

(** [len(j)] *)
Definition py_len (j : json) : result Z :=
  match j with
  | JList l => Ok (Z.of_nat (length l))
  | JStr s => Ok (Z.of_nat (String.length s))
  | JDict members => Ok (Z.of_nat (length (dict_of_pairs members)))
  | JNull | JBool _ | JInt _ | JFloat _ => Raise TypeError
  end.

(** [j[-1]]: the last element of a list or [str]; a dict is looked up at the
    key [-1], which no JSON object has. *)
Definition py_last (j : json) : result json :=
  match j with
  | JList l => match last l with Some x => Ok x | None => Raise IndexError end
  | JStr s => match last (chars s) with Some x => Ok x | None => Raise IndexError end
  | JDict _ => Raise KeyError
  | JNull | JBool _ | JInt _ | JFloat _ => Raise TypeError
  end.

End Py.
Export Py.

(** ** Uptime Kuma integration: [fetch_uptime_kuma_status] *)

Module Monitor.

(** The three strings a snapshot holds: ['online'], ['offline'],
    ['maintenance']. *)
Inductive status : Type := online | offline | maintenance.

#[export] Instance status_eq_dec : EqDecision status.
Proof. solve_decision. Defined.

(** One value of [PROGRAMS]. *)
Record program_info : Type := {
  name : string;
  description : string;
  emoji : string;
  monitor_name : string
}.

(** What [session.get(url, timeout=10)] and [response.json()] give: the call
    raises, or there is a response with a status and a body that is a JSON
    document or not. *)
Inductive http_result : Type :=
  | NetworkError
  | Response (status_code : Z) (body : option json).

(** The answers of the monitoring server during one fetch: the status page
    (monitor directory) and the heartbeat feed. *)
Record responses : Type := {
  directory_call : http_result;
  heartbeat_call : http_result
}.

Definition json_body (body : option json) : result json :=
  match body with Some j => Ok j | None => Raise ContentTypeError end.

Section fetch.
(** The static configuration: the tracked services, a [dict], and the two
    environment variables. *)
Variable PROGRAMS : list (string * program_info).
Variable UPTIME_KUMA_URL UPTIME_KUMA_STATUS_PAGE_SLUG : string.
(** [str] of a float, list or dict, for a monitor [id] that is one. *)
Variable repr : json → string.

(** [{prog_id: 'offline' for prog_id in PROGRAMS.keys()}] *)
Definition all_offline : list (string * status) :=
  foldl (λ d prog_id, dict_set prog_id offline d) [] (dict_keys PROGRAMS).

(** Lines 111-114: one monitor of a group's [monitorList]. *)
Definition add_monitor (monitor_id_to_name : list (string * json))
    (monitor : json) : result (list (string * json)) :=
  id ← py_get "id" JNull monitor;
  let monitor_id := py_str repr id in
  monitor_name ← py_get "name" (JStr "") monitor;
  if str_truthy monitor_id && py_truthy monitor_name
  then Ok (dict_set monitor_id monitor_name monitor_id_to_name)
  else Ok monitor_id_to_name.

(** Lines 110-114: one group of [publicGroupList]. *)
Definition add_group (monitor_id_to_name : list (string * json))
    (group : json) : result (list (string * json)) :=
  monitor_list ← py_get "monitorList" (JList []) group;
  monitors ← py_iter monitor_list;
  foldM add_monitor monitor_id_to_name monitors.

(** Lines 108-114: the monitor directory, ids to names. *)
Definition monitor_id_to_name_of (status_data : json)
  : result (list (string * json)) :=
  public_group_list ← py_get "publicGroupList" (JList []) status_data;
  groups ← py_iter public_group_list;
  foldM add_group [] groups.

(** Lines 142-149. *)
Definition code_to_status (status_value : json) : status :=
  if py_eq_int status_value 1 then online
  else if py_eq_int status_value 0 then offline
  else if py_eq_int status_value 2 then maintenance
  else offline.

(** Lines 136-151: one item of [heartbeatList]. *)
Definition add_heartbeat (monitor_statuses : list (string * status))
    (item : string * json) : result (list (string * status)) :=
  let '(monitor_id, beats) := item in
  if py_truthy beats then
    n ← py_len beats;
    if bool_decide (n > 0) then
      latest_beat ← py_last beats;
      status_value ← py_get "status" JNull latest_beat;
      Ok (dict_set monitor_id (code_to_status status_value) monitor_statuses)
    else Ok monitor_statuses
  else Ok monitor_statuses.

(** Lines 131-151: the status of each monitor that has heartbeats. *)
Definition monitor_statuses_of (heartbeat_data : json)
  : result (list (string * status)) :=
  heartbeat_list ← py_get "heartbeatList" (JDict []) heartbeat_data;
  items ← py_items heartbeat_list;
  foldM add_heartbeat [] items.

(** Lines 159-163: the first monitor id whose name is [monitor_name]. *)
Fixpoint find_monitor_id (monitor_id_to_name : list (string * json))
    (monitor_name : string) : option string :=
  match monitor_id_to_name with
  | [] => None
  | (m_id, m_name) :: rest =>
      if py_eq_str m_name monitor_name then Some m_id
      else find_monitor_id rest monitor_name
  end.

(** Lines 156-169: the status of one tracked service. *)
Definition program_status (monitor_id_to_name : list (string * json))
    (monitor_statuses : list (string * status)) (prog_info : program_info)
  : status :=
  match find_monitor_id monitor_id_to_name (monitor_name prog_info) with
  | Some monitor_id =>
      if str_truthy monitor_id then
        match dict_get monitor_id monitor_statuses with
        | Some s => s
        | None => offline
        end
      else offline
  | None => offline
  end.

(** Lines 154-171: the snapshot, one entry per item of [PROGRAMS]. *)
Definition program_statuses_of (monitor_id_to_name : list (string * json))
    (monitor_statuses : list (string * status)) : list (string * status) :=
  foldl (λ program_statuses p,
           dict_set p.1 (program_status monitor_id_to_name monitor_statuses p.2)
             program_statuses)
        [] PROGRAMS.

(** Lines 127-174: the innermost [try], once the heartbeat response has
    status 200. *)
Definition heartbeat_block (monitor_id_to_name : list (string * json))
    (body : option json) : list (string * status) :=
  match (heartbeat_data ← json_body body;
         monitor_statuses ← monitor_statuses_of heartbeat_data;
         Ok (program_statuses_of monitor_id_to_name monitor_statuses)) with
  | Ok program_statuses => program_statuses
  | Raise _ => all_offline
  end.

(** Lines 104-177: the middle [try], once the directory response has
    status 200. *)
Definition directory_block (body : option json) (heartbeat : http_result)
  : list (string * status) :=
  match (status_data ← json_body body;
         monitor_id_to_name ← monitor_id_to_name_of status_data;
         match heartbeat with
         | NetworkError => Raise ClientError
         | Response code hbody =>
             if bool_decide (code ≠ 200) then Ok all_offline
             else Ok (heartbeat_block monitor_id_to_name hbody)
         end) with
  | Ok program_statuses => program_statuses
  | Raise _ => all_offline
  end.

(** [fetch_uptime_kuma_status() -> Optional[Dict[str, str]]] *)
Definition fetch_uptime_kuma_status (w : responses)
  : option (list (string * status)) :=
  if negb (str_truthy UPTIME_KUMA_URL)
     || negb (str_truthy UPTIME_KUMA_STATUS_PAGE_SLUG)
  then None
  else
    match directory_call w with
    | NetworkError => Some all_offline
    | Response code body =>
        if bool_decide (code ≠ 200) then None
        else Some (directory_block body (heartbeat_call w))
    end.

(** *** The ways a fetch goes wrong

    Used to state what the fetch returns in each case: the configuration is
    missing; a call raises, answers with a status other than 200, or its body
    is malformed (it is not JSON, or reading it raises). *)

Definition configured : bool :=
  str_truthy UPTIME_KUMA_URL && str_truthy UPTIME_KUMA_STATUS_PAGE_SLUG.

Definition raises {A : Type} (r : result A) : bool :=
  match r with Ok _ => false | Raise _ => true end.

Definition directory_call_fails (call : http_result) : bool :=
  match call with
  | NetworkError => true
  | Response code body =>
      bool_decide (code ≠ 200)
      || raises (status_data ← json_body body; monitor_id_to_name_of status_data)
  end.

Definition heartbeat_call_fails (call : http_result) : bool :=
  match call with
  | NetworkError => true
  | Response code body =>
      bool_decide (code ≠ 200)
      || raises (heartbeat_data ← json_body body; monitor_statuses_of heartbeat_data)
  end.

Definition fetch_fails (w : responses) : bool :=
  negb configured
  || directory_call_fails (directory_call w)
  || heartbeat_call_fails (heartbeat_call w).

(** The status page lists a monitor with the name [m_name]: some monitor of
    some group's [monitorList] has it under ['name']. *)
Definition listed (status_data : json) (m_name : json) : Prop :=
  ∃ public_group_list groups group monitor_list monitors monitor,
    py_get "publicGroupList" (JList []) status_data = Ok public_group_list
    ∧ py_iter public_group_list = Ok groups
    ∧ group ∈ groups
    ∧ py_get "monitorList" (JList []) group = Ok monitor_list
    ∧ py_iter monitor_list = Ok monitors
    ∧ monitor ∈ monitors
    ∧ py_get "name" (JStr "") monitor = Ok m_name.

(** A monitor's entry in [heartbeatList] that lines 136-151 read without
    raising: a falsy value, which is skipped, or a list that ends with a JSON
    object. *)
Definition readable_beats (beats : json) : Prop :=
  py_truthy beats = false
  ∨ ∃ samples latest, beats = JList (samples ++ [JDict latest]).

(** A snapshot has one entry for each key of [PROGRAMS] and no other. *)
Definition complete (snapshot : list (string * status)) : Prop :=
  NoDup (dict_keys snapshot)
  ∧ list_to_set (dict_keys snapshot) =@{gset string} list_to_set (dict_keys PROGRAMS).

End fetch.

End Monitor.

(** ** The background task: [update_status_loop] *)

Module Polling.
Import Monitor.

(** The process-wide state the task writes: the global
    [cached_program_status] and the bot's presence. *)
Record bot_state : Type := {
  cached_program_status : list (string * status);
  presence : option string
}.

(** At start-up the cache is [{}] and no presence has been published. *)
Definition initial_state : bot_state :=
  {| cached_program_status := []; presence := None |}.

(** [sep.join(parts)] *)
Fixpoint join (sep : string) (parts : list string) : string :=
  match parts with
  | [] => ""
  | [p] => p
  | p :: rest => p +:+ sep +:+ join sep rest
  end.

(** [status_emojis]; every status has an entry, so the default of
    [status_emojis.get(status, ...)] is never taken. *)
Definition status_emojis (s : status) : string :=
  match s with
  | online => "✅"
  | offline => "❌"
  | maintenance => "🔧"
  end.

Section loop.
Variable PROGRAMS : list (string * program_info).
Variable UPTIME_KUMA_URL UPTIME_KUMA_STATUS_PAGE_SLUG : string.
Variable repr : json → string.

(** Lines 297-301: [if latest_status: ... elif not cached_program_status: ...];
    [None] and the empty dict are both falsy. *)
Definition next_cache (cached : list (string * status))
    (latest_status : option (list (string * status)))
  : list (string * status) :=
  let fallback :=
    if negb (dict_truthy cached) then all_offline PROGRAMS else cached in
  match latest_status with
  | Some latest => if dict_truthy latest then latest else fallback
  | None => fallback
  end.

(** Lines 306-310; [PROGRAMS[prog_id]] raises [KeyError] on a key that
    [PROGRAMS] does not have. *)
Definition add_status_part (status_parts : list string)
    (item : string * status) : result (list string) :=
  let '(prog_id, s) := item in
  match dict_get prog_id PROGRAMS with
  | Some prog_info => Ok (status_parts ++ [emoji prog_info +:+ status_emojis s])%list
  | None => Raise KeyError
  end.

Definition status_text (cached : list (string * status)) : result string :=
  status_parts ← foldM add_status_part [] cached;
  Ok (join " | " status_parts).

(** One run of the task.  The cache is assigned before the presence string
    is built, so it keeps its new value when building the string raises;
    [presence] records the string given to [bot.change_presence]. *)
Definition update_status_loop (st : bot_state) (w : responses)
  : bot_state * result unit :=
  let latest_status :=
    fetch_uptime_kuma_status PROGRAMS UPTIME_KUMA_URL
      UPTIME_KUMA_STATUS_PAGE_SLUG repr w in
  let cached := next_cache (cached_program_status st) latest_status in
  match status_text cached with
  | Ok text => ({| cached_program_status := cached; presence := Some text |}, Ok ())
  | Raise e => ({| cached_program_status := cached; presence := presence st |}, Raise e)
  end.

(** The state after the task has run once for each element of [ws]. *)
Definition run_ticks (ws : list responses) (st : bot_state) : bot_state :=
  foldl (λ st w, (update_status_loop st w).1) st ws.

(** The cache is empty, as at start-up, or complete. *)
Definition cache_inv (st : bot_state) : Prop :=
  cached_program_status st = []
  ∨ complete PROGRAMS (cached_program_status st).

End loop.

End Polling.

(** ** Server settings: [/setup] and the subscription buttons *)

Module Settings.
Import Monitor.

(** One value of [server_settings]: [{'channel': int, 'programs': [str]}],
    each key present or not. *)
Record server_entry : Type := {
  channel : option Z;
  programs : option (list string)
}.

(** The global [server_settings] and the document in [SETTINGS_FILE], if the
    file exists. *)
Record store : Type := {
  server_settings : gmap string server_entry;
  settings_file : option (gmap string server_entry)
}.

Definition load_settings (file : option (gmap string server_entry))
  : gmap string server_entry :=
  match file with Some doc => doc | None => ∅ end.

(** [save_settings(server_settings)]; [disk_ok] tells whether the file can be
    written. *)
Definition save_settings (disk_ok : bool) (st : store) : result store :=
  if disk_ok
  then Ok {| server_settings := server_settings st;
             settings_file := Some (server_settings st) |}
  else Raise OSError.

(** [list.remove(x)]: removes the first [x]. *)
Fixpoint list_remove_first (x : string) (l : list string) : list string :=
  match l with
  | [] => []
  | y :: l' => if decide (x = y) then l' else y :: list_remove_first x l'
  end.

(** Lines 222-225: [remove] the program when it is in the list, [append] it
    otherwise. *)
Definition toggle (program_id : string) (current_prefs : list string)
  : list string :=
  if bool_decide (program_id ∈ current_prefs)
  then list_remove_first program_id current_prefs
  else (current_prefs ++ [program_id])%list.

(** [s.replace(pat, '')]: every occurrence of [pat], scanning from the left;
    [skip] counts the characters of an occurrence still to drop. *)
Fixpoint remove_all_from (pat : string) (skip : nat) (s : string) : string :=
  match s with
  | EmptyString => EmptyString
  | String c s' =>
      match skip with
      | S k => remove_all_from pat k s'
      | O =>
          if String.prefix pat s
          then remove_all_from pat (String.length pat - 1) s'
          else String c (remove_all_from pat O s')
      end
  end.

Definition str_remove (pat s : string) : string :=
  match pat with
  | EmptyString => s
  | String _ _ => remove_all_from pat O s
  end.

(** What a handler does last: it answers, or an exception leaves it. *)
Inductive reply : Type :=
  | Respond (message : string)
  | EditMessage.

Section handlers.
Variable PROGRAMS : list (string * program_info).

(** [settings.get('channel')] of a server's entry (line 446). *)
Definition channel_of (settings : gmap string server_entry)
    (guild_id : string) : option Z :=
  entry ← settings !! guild_id; channel entry.

(** [server_settings.get(guild_id, {}).get('programs', list(PROGRAMS.keys()))]
    (lines 191, 452). *)
Definition subscribed_programs (settings : gmap string server_entry)
    (guild_id : string) : list string :=
  match settings !! guild_id with
  | Some entry =>
      match programs entry with
      | Some prefs => prefs
      | None => dict_keys PROGRAMS
      end
  | None => dict_keys PROGRAMS
  end.

(** Lines 371-375 of [setup]. *)
Definition set_channel (guild_id : string) (channel_id : Z)
    (settings : gmap string server_entry) : gmap string server_entry :=
  let settings :=
    match settings !! guild_id with
    | Some _ => settings
    | None => <[guild_id := {| channel := None; programs := None |}]> settings
    end in
  alter (λ entry, {| channel := Some channel_id; programs := programs entry |})
    guild_id settings.

(** The [/setup] command of a member with or without the permission
    [manage_channels]. *)
Definition setup (manage_channels : bool) (guild : Z) (channel_id : Z)
    (disk_ok : bool) (st : store) : store * result reply :=
  if negb manage_channels then
    (st, Ok (Respond "❌ You need the 'Manage Channels' permission to use this command."))
  else
    let guild_id := pretty guild in
    let st := {| server_settings := set_channel guild_id channel_id (server_settings st);
                 settings_file := settings_file st |} in
    match save_settings disk_ok st with
    | Ok st' =>
        (st', Ok (Respond ("✅ Success! Announcements will now be sent to <#"
                           +:+ pretty channel_id +:+ ">.")))
    | Raise e => (st, Raise e)
    end.

(** Lines 216-227 of [button_callback]. *)
Definition toggle_subscription (guild_id : string) (program_id : string)
    (settings : gmap string server_entry) : gmap string server_entry :=
  let settings :=
    match settings !! guild_id with
    | Some _ => settings
    | None =>
        <[guild_id := {| channel := None; programs := Some (dict_keys PROGRAMS) |}]>
          settings
    end in
  let current_prefs := subscribed_programs settings guild_id in
  let current_prefs := toggle program_id current_prefs in
  alter (λ entry, {| channel := channel entry; programs := Some current_prefs |})
    guild_id settings.

(** A press of the button [custom_id] in the view made for [guild]. *)
Definition button_callback (manage_channels : bool) (guild : Z)
    (custom_id : string) (disk_ok : bool) (st : store)
  : store * result reply :=
  if negb manage_channels then
    (st, Ok (Respond "You need 'Manage Channels' permission to change this."))
  else
    let guild_id := pretty guild in
    let program_id := str_remove "prog_toggle_" custom_id in
    let st := {| server_settings :=
                   toggle_subscription guild_id program_id (server_settings st);
                 settings_file := settings_file st |} in
    match save_settings disk_ok st with
    | Ok st' => (st', Ok EditMessage)
    | Raise e => (st, Raise e)
    end.

(** The subscription lists of a store have no program twice: so it is in a
    store no handler has written yet, and every handler keeps it so. *)
Definition lists_NoDup (settings : gmap string server_entry) : Prop :=
  ∀ guild_id, NoDup (subscribed_programs settings guild_id).

End handlers.

End Settings.

(** ** The update webhook: [handle_webhook] *)

Module Webhook.

(** The parts of a POST to [/update] the handler reads: the header
    [X-Hub-Signature-256], if the request has it, and the raw body. *)
Record request : Type := {
  signature_header : option string;
  data : string
}.

(** What the handler answers: a body with a status, or an exception leaves
    the handler (the framework then answers 500). *)
Inductive response : Type :=
  | Reply (body : string) (code : Z)
  | Unhandled (e : exn).

Inductive effect : Type :=
  | RunUpdateScript.   (* [subprocess.run(['/home/kidcorvid/quinnbot/update.sh'])] *)

Definition SECRET : string := "sweetbroisaselfinsert".

Definition is_ascii (s : string) : bool :=
  forallb (λ c, bool_decide (Ascii.nat_of_ascii c < 128)%nat) (String.list_ascii_of_string s).

(** [hmac.compare_digest(a, b)] on two [str]: it raises [TypeError] when one
    has a character that is not ASCII. *)
Definition compare_digest (a b : string) : result bool :=
  if is_ascii a && is_ascii b then Ok (bool_decide (a = b)) else Raise TypeError.

Section handler.
(** [hmac.new(key, msg, hashlib.sha256).hexdigest()] *)
Variable hmac_sha256_hexdigest : string → string → string.

Definition expected_signature (req : request) : string :=
  "sha256=" +:+ hmac_sha256_hexdigest SECRET (data req).

(** Lines 24-26: the script's exit status is not looked at. *)
Definition trigger_update : response * list effect :=
  (Reply "OK" 200, [RunUpdateScript]).

Definition handle_webhook (req : request) : response * list effect :=
  match signature_header req with
  | Some signature =>
      if str_truthy signature then
        match compare_digest signature (expected_signature req) with
        | Ok true => trigger_update
        | Ok false => (Reply "Unauthorized" 401, [])
        | Raise e => (Unhandled e, [])
        end
      else trigger_update
  | None => trigger_update
  end.

End handler.

End Webhook.

(** ** Invariants of the code *)

Module Invariants.

(** The directory under construction: ids are distinct and not empty, names
    are truthy. *)
Definition directory_ok (m2n : list (string * json)) : Prop :=
  NoDup (dict_keys m2n)
  ∧ ∀ m_id m_name, (m_id, m_name) ∈ m2n →
      str_truthy m_id = true ∧ py_truthy m_name = true.

End Invariants.

(** ** More string built-ins *)

Module Text.

(** [pat in s]: [pat] occurs in [s]. *)
Fixpoint contains (pat s : string) : bool :=
  String.prefix pat s
  || match s with
     | EmptyString => false
     | String _ s' => contains pat s'
     end.

(** [s.split(sep, maxsplit)] for a separator of one character: the pieces
    between the first [maxsplit] separators, empty pieces kept, and the rest
    of [s] as the last piece. *)
Fixpoint split_at (sep : Ascii.ascii) (maxsplit : nat) (s : string) : list string :=
  match s with
  | EmptyString => [EmptyString]
  | String c s' =>
      if decide (c = sep) then
        match maxsplit with
        | O => [s]
        | S m => EmptyString :: split_at sep m s'
        end
      else
        match split_at sep maxsplit s' with
        | piece :: pieces => String c piece :: pieces
        | [] => [String c EmptyString]
        end
  end.

(** The character [' ']. *)
Definition space : Ascii.ascii := Ascii.ascii_of_nat 32.

(** [s[n:]] *)
Fixpoint str_drop (n : nat) (s : string) : string :=
  match n, s with
  | O, _ => s
  | S n', String _ s' => str_drop n' s'
  | S _, EmptyString => EmptyString
  end.

End Text.

(** ** The subscription view: [ProgramSelectView] *)

Module View.
Import Monitor Settings.

Inductive button_style : Type :=
  | success      (* green: subscribed *)
  | secondary.   (* grey *)

#[export] Instance button_style_eq_dec : EqDecision button_style.
Proof. solve_decision. Defined.

Record button : Type := {
  label : string;
  button_emoji : string;
  style : button_style;
  custom_id : string
}.

(** A view: the server it was made for, as [str(guild_id)], and its
    buttons. *)
Record view : Type := {
  guild_id : string;
  children : list button
}.

Section view.
Variable PROGRAMS : list (string * program_info).

Definition style_for (selected : bool) : button_style :=
  if selected then success else secondary.

(** Lines 194-203: the button of one program. *)
Definition make_button (current_prefs : list string)
    (item : string * program_info) : button :=
  let '(program_id, program_info) := item in
  {| label := name program_info;
     button_emoji := emoji program_info;
     style := style_for (bool_decide (program_id ∈ current_prefs));
     custom_id := "prog_toggle_" +:+ program_id |}.

(** [ProgramSelectView(guild_id)], lines 186-203. *)
Definition ProgramSelectView (guild : Z)
    (settings : gmap string server_entry) : view :=
  let guild_id := pretty guild in
  let current_prefs := subscribed_programs PROGRAMS settings guild_id in
  {| guild_id := guild_id;
     children := make_button current_prefs <$> PROGRAMS |}.

(** Lines 231-237: a button is green when its program is in the list. *)
Definition restyle (current_prefs : list string) (item : button) : button :=
  let item_prog_id := str_remove "prog_toggle_" (custom_id item) in
  {| label := label item;
     button_emoji := button_emoji item;
     style := style_for (bool_decide (item_prog_id ∈ current_prefs));
     custom_id := custom_id item |}.

(** [button_callback] with the view it belongs to, lines 205-240: the store
    is changed and saved as [Settings.button_callback] does, then the
    buttons are restyled; when saving raises the buttons stay as they are. *)
Definition press (manage_channels : bool) (v : view) (pressed : string)
    (disk_ok : bool) (st : store) : store * view * result reply :=
  if negb manage_channels then
    (st, v, Ok (Respond "You need 'Manage Channels' permission to change this."))
  else
    let program_id := str_remove "prog_toggle_" pressed in
    let st := {| server_settings :=
                   toggle_subscription PROGRAMS (guild_id v) program_id
                     (server_settings st);
                 settings_file := settings_file st |} in
    match save_settings disk_ok st with
    | Ok st' =>
        let current_prefs :=
          subscribed_programs PROGRAMS (server_settings st') (guild_id v) in
        (st',
         {| guild_id := guild_id v;
            children := restyle current_prefs <$> children v |},
         Ok EditMessage)
    | Raise e => (st, v, Raise e)
    end.

(** The [/programs] command, lines 380-393: the view is made for the server
    of the member who has the permission. *)
Definition programs_command (manage_channels : bool) (guild : Z) (st : store)
  : option view :=
  if negb manage_channels then None
  else Some (ProgramSelectView guild (server_settings st)).

(** No program id has the prefix of the button ids inside it. *)
Definition plain_ids : Prop :=
  Forall (λ item : string * program_info,
            Text.contains "prog_toggle_" item.1 = false) PROGRAMS.

(** The view shows the subscriptions of its server: the buttons are those of
    [PROGRAMS], in order, each green exactly when its program is in the
    list that is read for the server. *)
Definition shows (v : view) (settings : gmap string server_entry) : Prop :=
  Forall2 (λ (item : string * program_info) (b : button),
             custom_id b = "prog_toggle_" +:+ item.1
             ∧ label b = name item.2
             ∧ (style b = success
                ↔ item.1 ∈ subscribed_programs PROGRAMS settings (guild_id v)))
          PROGRAMS (children v).

End view.

End View.

(** ** Commands and events *)

Module Commands.
Import Monitor Polling Settings.

(** *** [/status] *)

Record embed_field : Type := {
  field_name : string;
  field_value : string;
  inline : bool
}.

(** [status_map]; every status has an entry, so the default of
    [status_map.get(prog_status, ...)] is never taken. *)
Definition status_map (s : status) : string :=
  match s with
  | online => "✅ Online"
  | offline => "❌ Offline"
  | maintenance => "🔧 Maintenance"
  end.

(** *** What the bot sees of Discord *)

(** A channel: its id, whether the bot may send messages to it
    ([permissions_for(guild.me).send_messages]), and whether [channel.send]
    raises. *)
Record discord_channel : Type := {
  channel_id : Z;
  can_send : bool;
  send_fails : bool
}.

Record guild : Type := {
  system_channel : option discord_channel;
  text_channels : list discord_channel;
  get_channel : Z → option discord_channel
}.

(** An announcement: the [timestamp] of the embed is left out. *)
Record embed : Type := {
  title : string;
  embed_description : string;
  footer : option string
}.

(** One [channel.send(embed=...)] that went through: the key of the server
    in [server_settings], the channel, the embed. *)
Record delivery : Type := {
  to_guild : string;
  to_channel : Z;
  sent_embed : embed
}.

(** [sent_count], [failed_count] and the messages sent so far. *)
Record tally : Type := {
  sent_count : nat;
  failed_count : nat;
  outbox : list delivery
}.

Definition no_tally : tally :=
  {| sent_count := 0; failed_count := 0; outbox := [] |}.

Definition failed (t : tally) : tally :=
  {| sent_count := sent_count t;
     failed_count := S (failed_count t);
     outbox := outbox t |}.

Definition sent (d : delivery) (t : tally) : tally :=
  {| sent_count := S (sent_count t);
     failed_count := failed_count t;
     outbox := (outbox t ++ [d])%list |}.

(** What a text command ends with. *)
Inductive text_outcome : Type :=
  | Ignored
  | Replied (text : string) (deliveries : list delivery).

Section commands.
Variable PROGRAMS : list (string * program_info).
Variable UPTIME_KUMA_URL UPTIME_KUMA_STATUS_PAGE_SLUG : string.
Variable repr : json → string.
Variable OWNER_ID : Z.
(** [bot.get_guild] *)
Variable get_guild : Z → option guild.
(** [int(guild_id)]: [None] when it raises [ValueError]. *)
Variable py_int : string → option Z.
(** [str.lower] *)
Variable lower : string → string.

(** Lines 349-355: the field of one cached program. *)
Definition add_status_field (fields : list embed_field)
    (item : string * status) : result (list embed_field) :=
  let '(prog_id, prog_status) := item in
  match dict_get prog_id PROGRAMS with
  | Some prog_info =>
      Ok (fields ++ [{| field_name := emoji prog_info +:+ " " +:+ name prog_info;
                        field_value := status_map prog_status;
                        inline := true |}])%list
  | None => Raise KeyError
  end.

(** Lines 340-345 *)
Definition link_fields : list embed_field :=
  if str_truthy UPTIME_KUMA_URL then
    [{| field_name := "📈 Live Status Page";
        field_value := "[View detailed uptime statistics](" +:+ UPTIME_KUMA_URL
                       +:+ "/status/" +:+ UPTIME_KUMA_STATUS_PAGE_SLUG +:+ ")";
        inline := false |}]
  else [].

(** The [/status] command (the function [status]), lines 324-357: with an
    empty cache it first runs the background task once; the fields of the
    embed it sends, or the exception that leaves it. *)
Definition status_command (st : bot_state) (w : responses)
  : bot_state * result (list embed_field) :=
  let '(st, ran) :=
    if negb (dict_truthy (cached_program_status st))
    then update_status_loop PROGRAMS UPTIME_KUMA_URL
           UPTIME_KUMA_STATUS_PAGE_SLUG repr st w
    else (st, Ok ()) in
  match ran with
  | Raise e => (st, Raise e)
  | Ok _ => (st, foldM add_status_field link_fields (cached_program_status st))
  end.

(** *** [on_guild_join] *)

(** Lines 279-281: the system channel when the bot may send there, else the
    first text channel where it may. *)
Definition welcome_target (g : guild) : option discord_channel :=
  let first_open := list_find (λ c, can_send c = true) (text_channels g) in
  match system_channel g with
  | Some c => if can_send c then Some c else snd <$> first_open
  | None => snd <$> first_open
  end.

(** *** [/announce] and [!announce] *)

(** [program in PROGRAMS] *)
Definition is_program (program : string) : bool :=
  bool_decide (program ∈ dict_keys PROGRAMS).

(** Lines 456-469 and 533-546: the [try] block for one server. *)
Definition deliver_to (e : embed) (t : tally) (guild_id : string)
    (channel_id : Z) : tally :=
  match py_int guild_id with
  | None => failed t
  | Some g =>
      match get_guild g with
      | None => t
      | Some guild =>
          match get_channel guild channel_id with
          | Some c =>
              if can_send c then
                if send_fails c then failed t
                else sent {| to_guild := guild_id; to_channel := channel_id;
                             sent_embed := e |} t
              else failed t
          | None => failed t
          end
      end
  end.

(** [if program:] for an optional [str]. *)
Definition given (program : option string) : bool :=
  match program with Some p => str_truthy p | None => false end.

(** [program not in settings.get('programs', list(PROGRAMS.keys()))] *)
Definition unsubscribed (program : option string) (settings : server_entry)
  : bool :=
  match program with
  | Some p =>
      let subscribed :=
        match programs settings with
        | Some prefs => prefs
        | None => dict_keys PROGRAMS
        end in
      negb (bool_decide (p ∈ subscribed))
  | None => false
  end.

(** Lines 445-469: one round of the loop of [/announce]. *)
Definition announce_to (program : option string) (e : embed) (t : tally)
    (item : string * server_entry) : tally :=
  let '(guild_id, settings) := item in
  match channel settings with
  | None => t
  | Some channel_id =>
      if channel_id =? 0 then t
      else if given program && unsubscribed program settings then t
      else deliver_to e t guild_id channel_id
  end.

(** Lines 523-546: one round of the loop of [!announce]. *)
Definition text_announce_to (program_id : option string) (e : embed)
    (t : tally) (item : string * server_entry) : tally :=
  let '(guild_id, settings) := item in
  match channel settings with
  | None => t
  | Some channel_id =>
      if given program_id && unsubscribed program_id settings then t
      else deliver_to e t guild_id channel_id
  end.

(** Lines 429-440 *)
Definition announcement_embed (message : string) (program : option string)
  : embed :=
  match program with
  | Some p =>
      match (if str_truthy p then dict_get p PROGRAMS else None) with
      | Some info =>
          {| title := "📢 Announcement" +:+ " for " +:+ name info;
             embed_description := message;
             footer := Some (emoji info +:+ " " +:+ name info) |}
      | None =>
          {| title := "📢 Announcement"; embed_description := message;
             footer := None |}
      end
  | None =>
      {| title := "📢 Announcement"; embed_description := message;
         footer := None |}
  end.

Definition summary (t : tally) : string :=
  "✅ Announcement sent to " +:+ pretty (sent_count t) +:+ " servers. ("
  +:+ pretty (failed_count t) +:+ " failures.)".

(** The [/announce] command, lines 416-471, over the items of
    [server_settings] in the order the loop goes through them: the messages
    sent and the answer. *)
Definition announce (author_id : Z) (message : string)
    (program : option string) (items : list (string * server_entry))
  : list delivery * string :=
  if bool_decide (author_id ≠ OWNER_ID) then
    ([], "❌ This is a Quinn-only command.")
  else
    let t := foldl (announce_to program (announcement_embed message program))
               no_tally items in
    (outbox t, summary t).

(** Lines 495-503: the program and the text of [!announce ...]. *)
Definition parse_announce (content : string) (command : string)
    (parts : list string) : option string * string :=
  match parts with
  | _ :: p1 :: p2 :: _ =>
      if is_program (lower p1) then (Some (lower p1), p2)
      else (None, Text.str_drop (String.length command + 2) content)
  | _ => (None, Text.str_drop (String.length command + 2) content)
  end.

(** Lines 506-517: [PROGRAMS[program_id]] raises [KeyError] on a key that
    [PROGRAMS] does not have. *)
Definition text_embed (message : string) (program_id : option string)
  : result embed :=
  if given program_id then
    match program_id ≫= (λ p, dict_get p PROGRAMS) with
    | Some info =>
        Ok {| title := "📢 Announcement" +:+ " for " +:+ name info;
              embed_description := message;
              footer := Some (emoji info +:+ " " +:+ name info) |}
    | None => Raise KeyError
    end
  else Ok {| title := "📢 Announcement"; embed_description := message;
             footer := None |}.

(** [on_message], lines 476-548. *)
Definition on_message (author_id : Z) (content : string)
    (items : list (string * server_entry)) : result text_outcome :=
  if bool_decide (author_id ≠ OWNER_ID) || negb (String.prefix "!" content)
  then Ok Ignored
  else
    let parts := Text.split_at Text.space 2 content in
    let command :=
      lower (Text.str_drop 1 (match parts with p0 :: _ => p0 | [] => "" end)) in
    if bool_decide (command = "announce") then
      if bool_decide (length parts < 2)%nat then
        Ok (Replied
              "Usage: `!announce <message>` or `!announce <program_id> <message>`"
              [])
      else
        let '(program_id, announce_message) :=
          parse_announce content command parts in
        e ← text_embed announce_message program_id;
        let t := foldl (text_announce_to program_id e) no_tally items in
        Ok (Replied (summary t) (outbox t))
    else Ok Ignored.

(** A delivery that a loop over [items] may make for [program] with the
    embed [e]: it goes to the channel stored for a server of [items] that
    has not unsubscribed from the program, the server and the channel are
    found, the bot may send there and the send goes through. *)
Definition admissible (program : option string) (e : embed)
    (items : list (string * server_entry)) (d : delivery) : Prop :=
  ∃ settings z g c,
    (to_guild d, settings) ∈ items
    ∧ channel settings = Some (to_channel d)
    ∧ (given program = true → unsubscribed program settings = false)
    ∧ py_int (to_guild d) = Some z
    ∧ get_guild z = Some g
    ∧ get_channel g (to_channel d) = Some c
    ∧ can_send c = true
    ∧ send_fails c = false
    ∧ sent_embed d = e.

(** What holds of the tally all along a loop over servers of [items]. *)
Definition tally_ok (program : option string) (e : embed)
    (items : list (string * server_entry)) (t : tally) : Prop :=
  sent_count t = length (outbox t)
  ∧ ∀ d, d ∈ outbox t → admissible program e items d.

End commands.

End Commands.

(** ** Sequences of settings commands *)

Module Sessions.
Import Monitor Settings.

(** One use of [/setup] or one press of a button, with what decides its
    course: the member's permission and whether the file can be written. *)
Inductive action : Type :=
  | Setup (manage_channels : bool) (guild channel_id : Z) (disk_ok : bool)
  | Press (manage_channels : bool) (guild : Z) (custom_id : string)
      (disk_ok : bool).

Section sessions.
Variable PROGRAMS : list (string * program_info).

Definition act (st : store) (a : action) : store :=
  match a with
  | Setup manage_channels guild channel_id disk_ok =>
      (setup manage_channels guild channel_id disk_ok st).1
  | Press manage_channels guild custom_id disk_ok =>
      (button_callback PROGRAMS manage_channels guild custom_id disk_ok st).1
  end.

(** The store after the handlers have run one after the other. *)
Definition run_handlers (actions : list action) (st : store) : store :=
  foldl act st actions.

End sessions.

End Sessions.

(** ** The deployed configuration and sample inputs *)

Module Quinnbot.
Import Monitor Polling Settings Webhook.

Definition PROGRAMS : list (string * program_info) :=
  [ ("quinnflix",
     {| name := "Quinnflix";
        description := "Media streaming & request service";
        emoji := "🎬";
        monitor_name := "Quinnflix" |});
    ("vintage",
     {| name := "Vintage Studio Code";
        description := "Vintage Story game server";
        emoji := "🎮";
        monitor_name := "Vintage Studio Code" |});
    ("sugarcraft",
     {| name := "Sugarcraft";
        description := "Minecraft server";
        emoji := "⛏️";
        monitor_name := "Sugarcraft" |}) ].

(** A value for the two environment variables. *)
Definition UPTIME_KUMA_URL : string := "http://kuma.example".
Definition UPTIME_KUMA_STATUS_PAGE_SLUG : string := "default".

(** A stand-in for [str] of a float, list or dict; the sample documents
    below have integer monitor ids, on which it is not called. *)
Definition sample_repr (j : json) : string :=
  match j with JList _ => "[...]" | JDict _ => "{...}" | _ => "0.0" end.

Definition fetch : responses → option (list (string * status)) :=
  fetch_uptime_kuma_status PROGRAMS UPTIME_KUMA_URL
    UPTIME_KUMA_STATUS_PAGE_SLUG sample_repr.

Definition tick : bot_state → responses → bot_state * result unit :=
  update_status_loop PROGRAMS UPTIME_KUMA_URL
    UPTIME_KUMA_STATUS_PAGE_SLUG sample_repr.

(** A status page with the three monitors, ids 1, 2 and 3. *)
Definition sample_directory : json :=
  JDict [("publicGroupList",
    JList [JDict [("name", JStr "Services");
                  ("monitorList",
                   JList [JDict [("id", JInt 1); ("name", JStr "Quinnflix")];
                          JDict [("id", JInt 2); ("name", JStr "Vintage Studio Code")];
                          JDict [("id", JInt 3); ("name", JStr "Sugarcraft")]])]])].

Definition beat (code : Z) : json := JDict [("status", JInt code)].

(** A heartbeat feed whose last samples are 1, 0 and 2. *)
Definition sample_heartbeats : json :=
  JDict [("heartbeatList",
    JDict [("1", JList [beat 0; beat 1]);
           ("2", JList [beat 1; beat 0]);
           ("3", JList [beat 1; beat 2])])].

Definition healthy : responses :=
  {| directory_call := Response 200 (Some sample_directory);
     heartbeat_call := Response 200 (Some sample_heartbeats) |}.

(** The monitoring server cannot be reached. *)
Definition unreachable : responses :=
  {| directory_call := NetworkError; heartbeat_call := NetworkError |}.

(** The status page answers 200 with a body that is not JSON. *)
Definition garbled_directory : responses :=
  {| directory_call := Response 200 None;
     heartbeat_call := Response 200 (Some sample_heartbeats) |}.

(** The status page answers 503. *)
Definition directory_503 : responses :=
  {| directory_call := Response 503 None;
     heartbeat_call := Response 200 (Some sample_heartbeats) |}.

(** The status page answers, the heartbeat feed answers 500. *)
Definition heartbeat_500 : responses :=
  {| directory_call := Response 200 (Some sample_directory);
     heartbeat_call := Response 500 None |}.

(** The snapshot of the scenario: online, offline, maintenance. *)
Definition sample_snapshot : list (string * status) :=
  [("quinnflix", online); ("vintage", offline); ("sugarcraft", maintenance)].

Definition populated : bot_state :=
  {| cached_program_status := sample_snapshot; presence := None |}.

Definition everything_offline : list (string * status) :=
  [("quinnflix", offline); ("vintage", offline); ("sugarcraft", offline)].

(** An empty settings store, no file yet. *)
Definition no_settings : store :=
  {| server_settings := ∅; settings_file := None |}.

(** A stand-in for HMAC-SHA256 in the examples of the webhook. *)
Definition sample_hmac (key msg : string) : string := "00".

End Quinnbot.

(** ** Sample servers and messages *)

Module Samples.
Import Monitor Polling Settings View Commands Webhook Quinnbot.

Definition OWNER_ID : Z := 1.

(** A channel in which the bot may send. *)
Definition open_channel (id : Z) : discord_channel :=
  {| channel_id := id; can_send := true; send_fails := false |}.

(** A channel in which it may not. *)
Definition closed_channel (id : Z) : discord_channel :=
  {| channel_id := id; can_send := false; send_fails := false |}.

(** A server whose system channel is closed to the bot. *)
Definition sample_guild : guild :=
  {| system_channel := Some (closed_channel 5);
     text_channels := [closed_channel 6; open_channel 7; open_channel 8];
     get_channel := λ id, Some (open_channel id) |}.

(** The bot is on the servers 42 and 43. *)
Definition sample_get_guild (id : Z) : option guild :=
  if bool_decide (id = 42 ∨ id = 43) then Some sample_guild else None.

(** A stand-in for [int] on the keys of the sample settings. *)
Definition sample_py_int (s : string) : option Z :=
  if decide (s = "42") then Some 42
  else if decide (s = "43") then Some 43
  else None.

(** A stand-in for [str.lower] on the sample messages, which are in lower
    case. *)
Definition sample_lower (s : string) : string := s.


(** Three commands on server 42, the last one by a member without the
    permission. *)
Definition sample_session : list Sessions.action :=
  [Sessions.Press true 42 "prog_toggle_quinnflix" true;
   Sessions.Setup true 42 7 false;
   Sessions.Press false 42 "prog_toggle_vintage" true].

Definition one_item : list (string * server_entry) :=
  [("42", {| channel := Some 7; programs := None |})].

(** A heartbeat feed in which monitor 1 has no sample. *)
Definition no_samples : json :=
  JDict [("heartbeatList", JDict [("1", JList [])])].

(** A POST signed with the signature that [sample_hmac] gives. *)
Definition signed_request : request :=
  {| signature_header := Some "sha256=00"; data := "{}" |}.

End Samples.

(** * Properties *)

(** ** Dictionaries *)

Section dict_facts.
Context {V : Type}.
Implicit Types (k : string) (v : V) (d : list (string * V)).

Lemma dict_get_set_eq k v d : dict_get k (dict_set k v d) = Some v.
Proof.
  induction d as [|[k' v'] d IH]; simpl.
  - by rewrite decide_True.
  - destruct (decide (k = k')); simpl.
    + by rewrite decide_True.
    + by rewrite decide_False.
Qed.

Lemma dict_get_set_ne k k' v d :
  k ≠ k' → dict_get k' (dict_set k v d) = dict_get k' d.
Proof.
  intros Hne. induction d as [|[k0 v0] d IH]; simpl.
  - by rewrite decide_False.
  - destruct (decide (k = k0)) as [->|]; simpl.
    + by rewrite !decide_False.
    + by rewrite IH.
Qed.

Lemma dict_get_is_Some k d : is_Some (dict_get k d) ↔ k ∈ dict_keys d.
Proof.
  unfold dict_keys. induction d as [|[k' v'] d IH]; simpl.
  - split; [by intros [? ?] | by intros ?%elem_of_nil].
  - rewrite elem_of_cons. destruct (decide (k = k')) as [->|Hne].
    + split; [by left | by eexists].
    + rewrite IH. split; [by right | by intros [?|?]].
Qed.

Lemma dict_get_None k d : dict_get k d = None ↔ k ∉ dict_keys d.
Proof. rewrite <- dict_get_is_Some, eq_None_not_Some. done. Qed.

Lemma dict_get_elem_of k v d : dict_get k d = Some v → (k, v) ∈ d.
Proof.
  induction d as [|[k' v'] d IH]; simpl; [done|].
  destruct (decide (k = k')) as [->|].
  - intros [= ->]. apply elem_of_cons; by left.
  - intros H. apply elem_of_cons; right; auto.
Qed.

Lemma elem_of_dict_get k v d :
  NoDup (dict_keys d) → (k, v) ∈ d → dict_get k d = Some v.
Proof.
  unfold dict_keys. induction d as [|[k' v'] d IH]; simpl.
  - by intros _ ?%elem_of_nil.
  - intros [Hk' Hnd]%NoDup_cons [[= -> ->]|Hin]%elem_of_cons.
    + by rewrite decide_True.
    + rewrite decide_False; [auto|].
      intros ->. apply Hk'. apply list_elem_of_fmap. by exists (k', v).
Qed.

Lemma dict_keys_set_present k v d :
  k ∈ dict_keys d → dict_keys (dict_set k v d) = dict_keys d.
Proof.
  unfold dict_keys. induction d as [|[k' v'] d IH]; simpl.
  - by intros ?%elem_of_nil.
  - intros Hin. destruct (decide (k = k')) as [->|Hne]; simpl; [done|].
    f_equal. apply IH. apply elem_of_cons in Hin as [?|?]; done.
Qed.

Lemma dict_keys_set_absent k v d :
  k ∉ dict_keys d → dict_keys (dict_set k v d) = (dict_keys d ++ [k])%list.
Proof.
  unfold dict_keys. induction d as [|[k' v'] d IH]; simpl; [done|].
  intros Hnin. apply not_elem_of_cons in Hnin as [Hne Hnin].
  rewrite decide_False by done. simpl. f_equal. by apply IH.
Qed.

Lemma elem_of_dict_keys_set k k' v d :
  k' ∈ dict_keys (dict_set k v d) ↔ k' = k ∨ k' ∈ dict_keys d.
Proof.
  destruct (decide (k ∈ dict_keys d)) as [Hin|Hnin].
  - rewrite dict_keys_set_present by done.
    split; [by right | by intros [->|?]].
  - rewrite dict_keys_set_absent by done.
    rewrite elem_of_app, list_elem_of_singleton. tauto.
Qed.

Lemma elem_of_dict_set k v k' v' d :
  (k', v') ∈ dict_set k v d → (k', v') = (k, v) ∨ (k', v') ∈ d.
Proof.
  induction d as [|[k0 v0] d IH]; simpl.
  - intros ?%list_elem_of_singleton. by left.
  - destruct (decide (k = k0)) as [->|Hne].
    + intros [?|?]%elem_of_cons; [by left|]. right. by apply elem_of_cons; right.
    + intros [?|Hin]%elem_of_cons.
      * right. by apply elem_of_cons; left.
      * destruct (IH Hin) as [?|?]; [by left|]. right. by apply elem_of_cons; right.
Qed.

Lemma NoDup_dict_keys_set k v d :
  NoDup (dict_keys d) → NoDup (dict_keys (dict_set k v d)).
Proof.
  intros Hnd. destruct (decide (k ∈ dict_keys d)) as [Hin|Hnin].
  - by rewrite dict_keys_set_present.
  - rewrite dict_keys_set_absent by done.
    apply NoDup_app. split; [done|]. split.
    + intros x Hx ->%list_elem_of_singleton. done.
    + apply NoDup_singleton.
Qed.

Lemma dict_truthy_set k v d : dict_truthy (dict_set k v d) = true.
Proof. destruct d as [|[k' v'] d]; simpl; [done|]. by case_decide. Qed.

Lemma NoDup_dict_of_pairs (ps : list (string * V)) :
  NoDup (dict_keys (dict_of_pairs ps)).
Proof.
  unfold dict_of_pairs.
  assert (∀ d, NoDup (dict_keys d) →
    NoDup (dict_keys (foldl (λ d p, dict_set p.1 p.2 d) d ps))) as H.
  { induction ps as [|p ps IH]; simpl; [done|].
    intros d Hd. by apply IH, NoDup_dict_keys_set. }
  apply H. unfold dict_keys. simpl. apply NoDup_nil_2.
Qed.

(** *** A dict filled by a loop of assignments

    [for a in l: d[f(a)] = g(a)], which is also what a dict comprehension
    does. *)

Section fill.
Context {A : Type} (f : A → string) (g : A → V).

Lemma NoDup_keys_fill (l : list A) d :
  NoDup (dict_keys d) →
  NoDup (dict_keys (foldl (λ d a, dict_set (f a) (g a) d) d l)).
Proof.
  revert d. induction l as [|a l IH]; simpl; [done|].
  intros d Hd. by apply IH, NoDup_dict_keys_set.
Qed.

Lemma elem_of_keys_fill (l : list A) d k :
  k ∈ dict_keys (foldl (λ d a, dict_set (f a) (g a) d) d l)
  ↔ k ∈ dict_keys d ∨ k ∈ f <$> l.
Proof.
  revert d. induction l as [|a l IH]; simpl; intros d.
  - split; [by left | intros [?|?%elem_of_nil]; done].
  - rewrite IH, elem_of_dict_keys_set, elem_of_cons. tauto.
Qed.

Lemma dict_get_fill_other (l : list A) d k :
  k ∉ f <$> l →
  dict_get k (foldl (λ d a, dict_set (f a) (g a) d) d l) = dict_get k d.
Proof.
  revert d. induction l as [|a l IH]; simpl; intros d Hk; [done|].
  apply not_elem_of_cons in Hk as [Hne Hk].
  rewrite IH by done. by apply dict_get_set_ne.
Qed.

Lemma dict_get_fill (l : list A) d a :
  NoDup (f <$> l) → a ∈ l →
  dict_get (f a) (foldl (λ d a, dict_set (f a) (g a) d) d l) = Some (g a).
Proof.
  revert d. induction l as [|b l IH]; simpl; intros d Hnd Ha.
  - by apply elem_of_nil in Ha.
  - apply NoDup_cons in Hnd as [Hb Hnd].
    apply elem_of_cons in Ha as [->|Ha]; [|by apply IH].
    rewrite dict_get_fill_other by done. apply dict_get_set_eq.
Qed.

Lemma dict_keys_fill (l : list A) d :
  NoDup (dict_keys d ++ (f <$> l)) →
  dict_keys (foldl (λ d a, dict_set (f a) (g a) d) d l)
  = (dict_keys d ++ (f <$> l))%list.
Proof.
  revert d. induction l as [|a l IH]; simpl; intros d Hnd.
  - by rewrite app_nil_r.
  - assert (f a ∉ dict_keys d) as Hfa.
    { apply NoDup_app in Hnd as (_ & Hdis & _). intros Hin.
      apply (Hdis _ Hin). by left. }
    rewrite IH; rewrite dict_keys_set_absent by done.
    + by rewrite <- app_assoc.
    + by rewrite <- app_assoc.
Qed.

End fill.

End dict_facts.

(** ** The fetch *)

Section monitor_facts.
Import Monitor.
Variable PROGRAMS : list (string * program_info).
Variable UPTIME_KUMA_URL UPTIME_KUMA_STATUS_PAGE_SLUG : string.
Variable repr : json → string.

Local Abbreviation all_offline := (Monitor.all_offline PROGRAMS).
Local Abbreviation program_statuses_of := (Monitor.program_statuses_of PROGRAMS).
Local Abbreviation heartbeat_block := (Monitor.heartbeat_block PROGRAMS).
Local Abbreviation directory_block := (Monitor.directory_block PROGRAMS repr).
Local Abbreviation monitor_id_to_name_of := (Monitor.monitor_id_to_name_of repr).
Local Abbreviation fetch_uptime_kuma_status :=
  (Monitor.fetch_uptime_kuma_status PROGRAMS UPTIME_KUMA_URL
     UPTIME_KUMA_STATUS_PAGE_SLUG repr).
Local Abbreviation configured :=
  (Monitor.configured UPTIME_KUMA_URL UPTIME_KUMA_STATUS_PAGE_SLUG).
Local Abbreviation directory_call_fails := (Monitor.directory_call_fails repr).
Local Abbreviation complete := (Monitor.complete PROGRAMS).
Local Abbreviation fetch_fails :=
  (Monitor.fetch_fails UPTIME_KUMA_URL UPTIME_KUMA_STATUS_PAGE_SLUG repr).

Lemma complete_elem_of snapshot k :
  complete snapshot → k ∈ dict_keys snapshot ↔ k ∈ dict_keys PROGRAMS.
Proof.
  intros [_ Heq].
  rewrite <- (elem_of_list_to_set (C:=gset string) k (dict_keys snapshot)).
  rewrite Heq. apply elem_of_list_to_set.
Qed.

Lemma all_offline_complete : complete all_offline.
Proof.
  split.
  - apply (NoDup_keys_fill id (λ _, offline)). apply NoDup_nil_2.
  - apply set_eq. intros k. rewrite !elem_of_list_to_set.
    unfold Monitor.all_offline.
    rewrite (elem_of_keys_fill id (λ _, offline)), list_fmap_id.
    split; [intros [?%elem_of_nil|?]; done | by right].
Qed.

Lemma all_offline_values k s : dict_get k all_offline = Some s → s = offline.
Proof.
  unfold Monitor.all_offline.
  assert (∀ (l : list string) d,
    (∀ s', dict_get k d = Some s' → s' = offline) →
    dict_get k (foldl (λ d prog_id, dict_set prog_id offline d) d l) = Some s →
    s = offline) as H.
  { induction l as [|a l IH]; simpl; intros d Hd; [by apply Hd|].
    apply IH. intros s'. destruct (decide (a = k)) as [->|Hne].
    - rewrite dict_get_set_eq. by intros [= <-].
    - rewrite dict_get_set_ne by done. apply Hd. }
  apply H. by intros s'.
Qed.

Lemma all_offline_get k :
  k ∈ dict_keys PROGRAMS → dict_get k all_offline = Some offline.
Proof.
  intros Hk. apply (complete_elem_of _ _ all_offline_complete) in Hk.
  apply dict_get_is_Some in Hk as [s Hs].
  by rewrite Hs, (all_offline_values _ _ Hs).
Qed.

Lemma program_statuses_complete m2n ms : complete (program_statuses_of m2n ms).
Proof.
  split.
  - apply (NoDup_keys_fill fst (λ p, program_status m2n ms p.2)).
    apply NoDup_nil_2.
  - apply set_eq. intros k. rewrite !elem_of_list_to_set.
    unfold Monitor.program_statuses_of.
    rewrite (elem_of_keys_fill fst (λ p, program_status m2n ms p.2)).
    split; [intros [?%elem_of_nil|?]; done | by right].
Qed.

(** The three things a fetch returns. *)
Lemma heartbeat_block_cases m2n body :
  heartbeat_block m2n body = all_offline
  ∨ ∃ ms, heartbeat_block m2n body = program_statuses_of m2n ms.
Proof.
  unfold Monitor.heartbeat_block.
  destruct body as [heartbeat_data|]; simpl; [|by left].
  destruct (monitor_statuses_of heartbeat_data) as [ms|e]; simpl;
    [right; by exists ms | by left].
Qed.

Lemma directory_block_cases body heartbeat :
  directory_block body heartbeat = all_offline
  ∨ ∃ m2n ms, directory_block body heartbeat = program_statuses_of m2n ms.
Proof.
  unfold Monitor.directory_block.
  destruct body as [status_data|]; simpl; [|by left].
  destruct (monitor_id_to_name_of status_data) as [m2n|e]; simpl; [|by left].
  destruct heartbeat as [|code hbody]; simpl; [by left|].
  case_bool_decide; [by left|].
  destruct (heartbeat_block_cases m2n hbody) as [->|[ms ->]];
    [by left | right; by exists m2n, ms].
Qed.

Lemma fetch_cases w :
  fetch_uptime_kuma_status w = None
  ∨ fetch_uptime_kuma_status w = Some all_offline
  ∨ ∃ m2n ms, fetch_uptime_kuma_status w = Some (program_statuses_of m2n ms).
Proof.
  unfold Monitor.fetch_uptime_kuma_status.
  destruct (_ || _); [by left|].
  destruct (directory_call w) as [|code body]; [right; by left|].
  case_bool_decide; [by left|]. right.
  destruct (directory_block_cases body (heartbeat_call w)) as [->|(m2n & ms & ->)];
    [by left | right; by exists m2n, ms].
Qed.

Lemma fetch_complete w snapshot :
  fetch_uptime_kuma_status w = Some snapshot → complete snapshot.
Proof.
  destruct (fetch_cases w) as [->|[->|(m2n & ms & ->)]]; [done| |];
    intros [= <-]; [apply all_offline_complete | apply program_statuses_complete].
Qed.

(** *** Reconciliation: lines 153-171 *)

Lemma program_statuses_get m2n ms prog_id prog_info :
  NoDup (dict_keys PROGRAMS) → (prog_id, prog_info) ∈ PROGRAMS →
  dict_get prog_id (program_statuses_of m2n ms)
  = Some (program_status m2n ms prog_info).
Proof.
  intros Hnd Hin.
  apply (dict_get_fill fst (λ p, program_status m2n ms p.2) PROGRAMS []
           (prog_id, prog_info) Hnd Hin).
Qed.

Lemma program_statuses_keys m2n ms :
  NoDup (dict_keys PROGRAMS) →
  dict_keys (program_statuses_of m2n ms) = dict_keys PROGRAMS.
Proof.
  intros Hnd.
  apply (dict_keys_fill fst (λ p, program_status m2n ms p.2) PROGRAMS []).
  done.
Qed.

Lemma find_monitor_id_absent (m2n : list (string * json)) monitor_name :
  (∀ m_id m_name, (m_id, m_name) ∈ m2n → m_name ≠ JStr monitor_name) →
  find_monitor_id m2n monitor_name = None.
Proof.
  induction m2n as [|[m_id m_name] m2n IH]; simpl; intros Habs; [done|].
  destruct (py_eq_str m_name monitor_name) eqn:Heq.
  - exfalso. apply (Habs m_id m_name); [by left|].
    destruct m_name; simpl in Heq; try done.
    by apply bool_decide_eq_true in Heq as ->.
  - apply IH. intros m_id' m_name' Hin. apply (Habs m_id'). by right.
Qed.

Lemma program_statuses_empty_directory ms :
  program_statuses_of [] ms = all_offline.
Proof.
  unfold Monitor.program_statuses_of, Monitor.all_offline, dict_keys.
  generalize (@nil (string * status)).
  induction PROGRAMS as [|[prog_id prog_info] programs IH]; intros acc;
    simpl; [done|apply IH].
Qed.

(** C3. Whatever the monitor directory [m2n] and the heartbeat statuses [ms]
    are, the snapshot that reconciliation builds has exactly the keys of
    [PROGRAMS]: no key twice, and the same set of keys.  So has every
    snapshot that the fetch returns, whatever the server answers. *)
Theorem snapshot_keys_are_tracked_services :
  (∀ (m2n : list (string * json)) (ms : list (string * status)),
     NoDup (dict_keys (program_statuses_of m2n ms))
     ∧ list_to_set (dict_keys (program_statuses_of m2n ms))
       =@{gset string} list_to_set (dict_keys PROGRAMS))
  ∧ (∀ (w : responses) (snapshot : list (string * status)),
       fetch_uptime_kuma_status w = Some snapshot →
       NoDup (dict_keys snapshot)
       ∧ list_to_set (dict_keys snapshot)
         =@{gset string} list_to_set (dict_keys PROGRAMS)).
Proof.
  split.
  - intros m2n ms. apply program_statuses_complete.
  - intros w snapshot. apply fetch_complete.
Qed.

Lemma program_status_absent m2n ms prog_id prog_info :
  NoDup (dict_keys PROGRAMS) → (prog_id, prog_info) ∈ PROGRAMS →
  (∀ m_id m_name, (m_id, m_name) ∈ m2n → m_name ≠ JStr (monitor_name prog_info)) →
  dict_get prog_id (program_statuses_of m2n ms) = Some offline.
Proof.
  intros Hnd Hin Habs. rewrite (program_statuses_get _ _ _ _ Hnd Hin).
  unfold program_status. by rewrite find_monitor_id_absent.
Qed.

(** Every name of the directory [m2n] is the name of a monitor that the
    status page lists. *)
Lemma foldM_add_monitor_names monitors :
  ∀ acc acc' m_id m_name,
    foldM (add_monitor repr) acc monitors = Ok acc' →
    (m_id, m_name) ∈ acc' →
    (m_id, m_name) ∈ acc
    ∨ ∃ monitor, monitor ∈ monitors
                 ∧ py_get "name" (JStr "") monitor = Ok m_name.
Proof.
  induction monitors as [|monitor monitors IH]; intros acc acc' m_id m_name.
  - intros [= <-] Hin. by left.
  - cbn [foldM]. destruct (add_monitor repr acc monitor) as [acc1|e] eqn:Hadd;
      [|done].
    cbn [mbind result_bind]. intros Hfold Hin.
    destruct (IH _ _ _ _ Hfold Hin) as [Hin1|(m & Hm & Hname)].
    + unfold add_monitor in Hadd.
      destruct (py_get "id" JNull monitor) as [id|]; [|done].
      cbn [mbind result_bind] in Hadd.
      destruct (py_get "name" (JStr "") monitor) as [nm|] eqn:Hnm; [|done].
      cbn [mbind result_bind] in Hadd.
      destruct (_ && _); injection Hadd as <-; [|by left].
      apply elem_of_dict_set in Hin1 as [[= -> ->]|?]; [|by left].
      right. exists monitor. split; [by left|done].
    + right. exists m. split; [by right|done].
Qed.

Lemma foldM_add_group_names groups :
  ∀ acc acc' m_id m_name,
    foldM (add_group repr) acc groups = Ok acc' →
    (m_id, m_name) ∈ acc' →
    (m_id, m_name) ∈ acc
    ∨ ∃ group monitor_list monitors monitor,
        group ∈ groups
        ∧ py_get "monitorList" (JList []) group = Ok monitor_list
        ∧ py_iter monitor_list = Ok monitors
        ∧ monitor ∈ monitors
        ∧ py_get "name" (JStr "") monitor = Ok m_name.
Proof.
  induction groups as [|group groups IH]; intros acc acc' m_id m_name.
  - intros [= <-] Hin. by left.
  - cbn [foldM]. destruct (add_group repr acc group) as [acc1|e] eqn:Hadd;
      [|done].
    cbn [mbind result_bind]. intros Hfold Hin.
    destruct (IH _ _ _ _ Hfold Hin)
      as [Hin1|(g & ml & ms & m & Hg & Hml & Hms & Hm & Hname)].
    + unfold add_group in Hadd.
      destruct (py_get "monitorList" (JList []) group) as [ml|] eqn:Hml; [|done].
      cbn [mbind result_bind] in Hadd.
      destruct (py_iter ml) as [ms|] eqn:Hms; [|done].
      cbn [mbind result_bind] in Hadd.
      destruct (foldM_add_monitor_names _ _ _ _ _ Hadd Hin1)
        as [?|(m & Hm & Hname)]; [by left|].
      right. exists group, ml, ms, m. split; [by left|done].
    + right. exists g, ml, ms, m. split; [by right|done].
Qed.

Lemma directory_names_listed status_data m2n m_id m_name :
  monitor_id_to_name_of status_data = Ok m2n →
  (m_id, m_name) ∈ m2n → listed status_data m_name.
Proof.
  unfold Monitor.monitor_id_to_name_of, listed.
  destruct (py_get "publicGroupList" (JList []) status_data) as [gl|]; [|done].
  cbn [mbind result_bind].
  destruct (py_iter gl) as [groups|] eqn:Hgroups; [|done].
  cbn [mbind result_bind]. intros Hfold Hin.
  destruct (foldM_add_group_names _ _ _ _ _ Hfold Hin)
    as [?%elem_of_nil|(g & ml & ms & m & Hg & Hml & Hms & Hm & Hname)]; [done|].
  by exists gl, groups, g, ml, ms, m.
Qed.

Lemma fetch_Some_cases w snapshot :
  fetch_uptime_kuma_status w = Some snapshot →
  snapshot = all_offline
  ∨ ∃ status_data m2n ms,
      directory_call w = Response 200 (Some status_data)
      ∧ monitor_id_to_name_of status_data = Ok m2n
      ∧ snapshot = program_statuses_of m2n ms.
Proof.
  unfold Monitor.fetch_uptime_kuma_status.
  destruct (_ || _); [done|].
  destruct (directory_call w) as [|code body]; [intros [= <-]; by left|].
  case_bool_decide as Hcode; [done|]. intros [= <-].
  assert (code = 200) as -> by (by destruct (decide (code = 200))).
  unfold Monitor.directory_block.
  destruct body as [status_data|]; simpl; [|by left].
  destruct (monitor_id_to_name_of status_data) as [m2n|e] eqn:Hm2n; simpl;
    [|by left].
  destruct (heartbeat_call w) as [|hcode hbody]; simpl; [by left|].
  case_bool_decide; [by left|].
  destruct (heartbeat_block_cases m2n hbody) as [->|[ms ->]]; [by left|].
  right. by exists status_data, m2n, ms.
Qed.

(** C5. A tracked service whose monitor name the directory does not have is
    offline, whatever the heartbeat statuses are: in the snapshot that
    reconciliation builds from a directory [m2n] without the name, and in
    every snapshot the fetch returns when the status page lists no monitor
    of that name.  With an empty directory the snapshot is the all-offline
    one. *)
Theorem absent_monitor_is_offline (prog_id : string) (prog_info : program_info) :
  NoDup (dict_keys PROGRAMS) →
  (prog_id, prog_info) ∈ PROGRAMS →
  (∀ (m2n : list (string * json)) (ms : list (string * status)),
     (∀ m_id m_name, (m_id, m_name) ∈ m2n →
                     m_name ≠ JStr (monitor_name prog_info)) →
     dict_get prog_id (program_statuses_of m2n ms) = Some offline)
  ∧ (∀ (w : responses) (status_data : json) (snapshot : list (string * status)),
       directory_call w = Response 200 (Some status_data) →
       ¬ listed status_data (JStr (monitor_name prog_info)) →
       fetch_uptime_kuma_status w = Some snapshot →
       dict_get prog_id snapshot = Some offline)
  ∧ (∀ ms : list (string * status),
       program_statuses_of [] ms = all_offline
       ∧ dict_get prog_id (program_statuses_of [] ms) = Some offline).
Proof.
  intros Hnd Hin. split; [|split].
  - intros m2n ms Habs.
    by apply (program_status_absent m2n ms prog_id prog_info).
  - intros w status_data snapshot Hdir Habs Hfetch.
    destruct (fetch_Some_cases w snapshot Hfetch)
      as [->|(sd & m2n & ms & Hdir' & Hm2n & ->)].
    + apply all_offline_get. apply list_elem_of_fmap. by exists (prog_id, prog_info).
    + rewrite Hdir in Hdir'. injection Hdir' as <-.
      apply (program_status_absent m2n ms prog_id prog_info Hnd Hin).
      intros m_id m_name Hm ->. apply Habs.
      by apply (directory_names_listed status_data m2n m_id).
  - intros ms. split; [apply program_statuses_empty_directory|].
    apply (program_status_absent [] ms prog_id prog_info Hnd Hin).
    by intros m_id m_name ?%elem_of_nil.
Qed.

(** *** Heartbeats: lines 131-151 *)

Lemma as_dict_NoDup j d : as_dict j = Some d → NoDup (dict_keys d).
Proof.
  destruct j; simpl; try done. intros [= <-]. apply NoDup_dict_of_pairs.
Qed.

Lemma add_heartbeat_skips monitor_statuses monitor_id beats :
  py_truthy beats = false →
  add_heartbeat monitor_statuses (monitor_id, beats) = Ok monitor_statuses.
Proof. intros H. simpl. by rewrite H. Qed.

Lemma add_heartbeat_latest monitor_statuses monitor_id samples latest status_value :
  py_get "status" JNull latest = Ok status_value →
  add_heartbeat monitor_statuses (monitor_id, JList (samples ++ [latest]))
  = Ok (dict_set monitor_id (code_to_status status_value) monitor_statuses).
Proof.
  intros Hget. unfold add_heartbeat.
  assert (py_truthy (JList (samples ++ [latest])) = true) as ->.
  { simpl. by destruct samples. }
  cbn [py_len mbind result_bind]. rewrite bool_decide_true.
  - cbn [py_last]. rewrite last_snoc. cbn [mbind result_bind].
    by rewrite Hget.
  - rewrite length_app. simpl. lia.
Qed.

Lemma foldM_add_heartbeat (items : list (string * json)) :
  NoDup items.*1 →
  Forall (λ item, readable_beats item.2) items →
  ∀ acc, ∃ ms,
    foldM add_heartbeat acc items = Ok ms
    ∧ (∀ k, k ∉ items.*1 → dict_get k ms = dict_get k acc)
    ∧ (∀ k samples latest status_value,
         (k, JList (samples ++ [latest])) ∈ items →
         py_get "status" JNull latest = Ok status_value →
         dict_get k ms = Some (code_to_status status_value)).
Proof.
  induction items as [|[k0 beats] items IH]; intros Hnd Hwf acc.
  - exists acc. split; [done|]. split; [done|].
    by intros k samples latest sv ?%elem_of_nil.
  - apply NoDup_cons in Hnd as [Hk0 Hnd].
    apply Forall_cons in Hwf as [Hbeats Hwf]. simpl in Hbeats.
    destruct Hbeats as [Hfalsy|(s0 & l0 & ->)].
    + destruct (IH Hnd Hwf acc) as (ms & Hms & Hother & Hlast).
      exists ms. split; [|split].
      * change (foldM add_heartbeat acc ((k0, beats) :: items))
          with (acc' ← add_heartbeat acc (k0, beats); foldM add_heartbeat acc' items).
        by rewrite add_heartbeat_skips.
      * intros k [_ Hk]%not_elem_of_cons. by apply Hother.
      * intros k samples latest sv [[= -> <-]|Hin]%elem_of_cons Hget;
          [|by eapply Hlast].
        simpl in Hfalsy. by destruct samples.
    + set (sv0 := match dict_get "status" (dict_of_pairs l0) with
                  | Some v => v | None => JNull end).
      assert (py_get "status" JNull (JDict l0) = Ok sv0) as Hget0 by done.
      destruct (IH Hnd Hwf (dict_set k0 (code_to_status sv0) acc))
        as (ms & Hms & Hother & Hlast).
      exists ms. split; [|split].
      * change (foldM add_heartbeat acc ((k0, JList (s0 ++ [JDict l0])) :: items))
          with (acc' ← add_heartbeat acc (k0, JList (s0 ++ [JDict l0]));
                foldM add_heartbeat acc' items).
        by rewrite (add_heartbeat_latest _ _ _ _ _ Hget0).
      * intros k [Hne Hk]%not_elem_of_cons.
        rewrite Hother by done. by apply dict_get_set_ne.
      * intros k samples latest sv [[= -> Heq]|Hin]%elem_of_cons Hget;
          [|by eapply Hlast].
        apply app_inj_tail in Heq as [_ ->].
        rewrite Hget0 in Hget. injection Hget as <-.
        rewrite Hother by done. apply dict_get_set_eq.
Qed.

(** C4. When every entry of [heartbeatList] can be read, the aggregator
    returns the monitor statuses, and for every monitor whose sequence of
    samples is not empty the status is that of the last sample's code:
    1 is online, 0 offline, 2 maintenance, any other code offline. *)
Theorem latest_sample_decides_status
    (heartbeat_data : json) (items : list (string * json)) :
  (heartbeat_list ← py_get "heartbeatList" (JDict []) heartbeat_data;
   py_items heartbeat_list) = Ok items →
  Forall (λ item, readable_beats item.2) items →
  ∃ monitor_statuses,
    monitor_statuses_of heartbeat_data = Ok monitor_statuses
    ∧ (∀ monitor_id samples latest status_value,
         (monitor_id, JList (samples ++ [latest])) ∈ items →
         py_get "status" JNull latest = Ok status_value →
         dict_get monitor_id monitor_statuses
         = Some (code_to_status status_value))
    ∧ code_to_status (JInt 1) = online
    ∧ code_to_status (JInt 0) = offline
    ∧ code_to_status (JInt 2) = maintenance
    ∧ (∀ code, code ≠ 1 → code ≠ 2 → code_to_status (JInt code) = offline).
Proof.
  intros Hitems Hwf. unfold monitor_statuses_of.
  destruct (py_get "heartbeatList" (JDict []) heartbeat_data)
    as [heartbeat_list|e]; simpl in *; [|done].
  unfold py_items in *.
  destruct (as_dict heartbeat_list) as [d|] eqn:Hd; simpl in *; [|done].
  injection Hitems as ->.
  destruct (foldM_add_heartbeat items (as_dict_NoDup _ _ Hd) Hwf [])
    as (ms & Hms & _ & Hlast).
  exists ms. split; [done|]. split; [done|]. repeat split.
  intros code H1 H2. unfold code_to_status. simpl.
  destruct (code =? 1) eqn:E1; [lia|].
  destruct (code =? 0) eqn:E0; [done|].
  destruct (code =? 2) eqn:E2; [lia|done].
Qed.

(** *** What the fetch returns when a call goes wrong *)

Lemma configured_true :
  configured = true →
  negb (str_truthy UPTIME_KUMA_URL)
  || negb (str_truthy UPTIME_KUMA_STATUS_PAGE_SLUG) = false.
Proof.
  unfold Monitor.configured.
  by destruct (str_truthy UPTIME_KUMA_URL),
    (str_truthy UPTIME_KUMA_STATUS_PAGE_SLUG).
Qed.

Lemma fetch_not_configured w :
  configured = false → fetch_uptime_kuma_status w = None.
Proof.
  unfold Monitor.configured, Monitor.fetch_uptime_kuma_status.
  by destruct (str_truthy UPTIME_KUMA_URL),
    (str_truthy UPTIME_KUMA_STATUS_PAGE_SLUG).
Qed.

(** Line 102: a status page that answers with another status than 200 is the
    one failure of the directory call that the fetch reports as [None]. *)
Lemma fetch_directory_http_error w code body :
  configured = true → directory_call w = Response code body → code ≠ 200 →
  fetch_uptime_kuma_status w = None.
Proof.
  intros Hc Hd Hcode. unfold Monitor.fetch_uptime_kuma_status.
  rewrite (configured_true Hc), Hd. by rewrite bool_decide_true.
Qed.

(** Lines 178-180: when the directory call raises, the fetch returns the
    all-offline snapshot. *)
Lemma fetch_directory_network_error w :
  configured = true → directory_call w = NetworkError →
  fetch_uptime_kuma_status w = Some all_offline.
Proof.
  intros Hc Hd. unfold Monitor.fetch_uptime_kuma_status.
  by rewrite (configured_true Hc), Hd.
Qed.

(** Lines 175-177: so it does when the body of the status page is malformed. *)
Lemma fetch_directory_malformed w body :
  configured = true → directory_call w = Response 200 body →
  raises (status_data ← json_body body; monitor_id_to_name_of status_data) = true →
  fetch_uptime_kuma_status w = Some all_offline.
Proof.
  intros Hc Hd Hr. unfold Monitor.fetch_uptime_kuma_status.
  rewrite (configured_true Hc), Hd. rewrite bool_decide_false by (by intros []).
  f_equal. unfold Monitor.directory_block.
  destruct body as [status_data|]; simpl in *; [|done].
  by destruct (monitor_id_to_name_of status_data).
Qed.

Lemma heartbeat_failure w :
  configured = true →
  directory_call_fails (directory_call w) = false →
  heartbeat_call_fails (heartbeat_call w) = true →
  fetch_uptime_kuma_status w = Some all_offline.
Proof.
  intros Hc Hd Hh. unfold Monitor.fetch_uptime_kuma_status.
  rewrite (configured_true Hc).
  destruct (directory_call w) as [|code body]; simpl in Hd; [done|].
  apply orb_false_elim in Hd as [Hcode Hd]. rewrite Hcode.
  f_equal. unfold Monitor.directory_block.
  destruct body as [status_data|]; simpl in *; [|done].
  destruct (monitor_id_to_name_of status_data) as [m2n|e]; simpl in *; [|done].
  destruct (heartbeat_call w) as [|hcode hbody]; simpl in *; [done|].
  destruct (bool_decide (hcode ≠ 200)); simpl in *; [done|].
  unfold Monitor.heartbeat_block.
  destruct hbody as [heartbeat_data|]; simpl in *; [|done].
  by destruct (monitor_statuses_of heartbeat_data).
Qed.

Lemma fetch_fails_cases w :
  fetch_fails w = true →
  fetch_uptime_kuma_status w = None
  ∨ fetch_uptime_kuma_status w = Some all_offline.
Proof.
  unfold Monitor.fetch_fails. intros Hf.
  destruct configured eqn:Hc; [|left; by apply fetch_not_configured].
  simpl in Hf.
  destruct (directory_call_fails (directory_call w)) eqn:Hd.
  - destruct (directory_call w) as [|code body] eqn:Hw; simpl in Hd.
    + right. by apply fetch_directory_network_error.
    + destruct (decide (code = 200)) as [->|Hcode].
      * right. apply (fetch_directory_malformed w body Hc Hw).
        by rewrite bool_decide_false in Hd by (by intros []).
      * left. by apply (fetch_directory_http_error w code body).
  - right. by apply heartbeat_failure.
Qed.

(** When nothing goes wrong the fetch returns the reconciled snapshot. *)
Lemma fetch_succeeds w :
  fetch_fails w = false →
  ∃ status_data heartbeat_data m2n ms,
    directory_call w = Response 200 (Some status_data)
    ∧ heartbeat_call w = Response 200 (Some heartbeat_data)
    ∧ monitor_id_to_name_of status_data = Ok m2n
    ∧ monitor_statuses_of heartbeat_data = Ok ms
    ∧ fetch_uptime_kuma_status w = Some (program_statuses_of m2n ms).
Proof.
  unfold Monitor.fetch_fails. intros Hf.
  apply orb_false_elim in Hf as [Hf Hh].
  apply orb_false_elim in Hf as [Hc Hd].
  apply negb_false_iff in Hc.
  unfold Monitor.fetch_uptime_kuma_status. rewrite (configured_true Hc).
  destruct (directory_call w) as [|code body]; simpl in Hd; [done|].
  apply orb_false_elim in Hd as [Hcode Hd]. rewrite Hcode.
  apply bool_decide_eq_false in Hcode.
  destruct body as [status_data|]; simpl in Hd; [|done].
  destruct (monitor_id_to_name_of status_data) as [m2n|e] eqn:Hm2n; [|done].
  destruct (heartbeat_call w) as [|hcode hbody]; simpl in Hh; [done|].
  apply orb_false_elim in Hh as [Hhcode Hh].
  destruct hbody as [heartbeat_data|]; simpl in Hh; [|done].
  destruct (monitor_statuses_of heartbeat_data) as [ms|e] eqn:Hms; [|done].
  exists status_data, heartbeat_data, m2n, ms.
  assert (code = 200) as -> by (destruct (decide (code = 200)); done).
  apply bool_decide_eq_false in Hhcode.
  assert (hcode = 200) as -> by (destruct (decide (hcode = 200)); done).
  repeat split; try done.
  unfold Monitor.directory_block, Monitor.heartbeat_block. simpl.
  rewrite Hm2n. simpl. by rewrite Hms.
Qed.

(** C7. When the directory call succeeds and the heartbeat call fails (it
    raises, answers with a status other than 200, or its body is malformed),
    the fetch returns a snapshot, not [None], and the snapshot has every
    tracked service offline. *)
Theorem heartbeat_failure_gives_all_offline (w : responses) :
  configured = true →
  directory_call_fails (directory_call w) = false →
  Monitor.heartbeat_call_fails (heartbeat_call w) = true →
  ∃ snapshot,
    fetch_uptime_kuma_status w = Some snapshot
    ∧ complete snapshot
    ∧ ∀ prog_id, prog_id ∈ dict_keys PROGRAMS →
        dict_get prog_id snapshot = Some offline.
Proof.
  intros Hc Hd Hh. exists all_offline. split; [by apply heartbeat_failure|].
  split; [apply all_offline_complete|apply all_offline_get].
Qed.

End monitor_facts.

(** ** The polling loop *)

Section polling_facts.
Import Monitor Polling.
Variable PROGRAMS : list (string * program_info).
Variable UPTIME_KUMA_URL UPTIME_KUMA_STATUS_PAGE_SLUG : string.
Variable repr : json → string.

Local Abbreviation all_offline := (Monitor.all_offline PROGRAMS).
Local Abbreviation complete := (Monitor.complete PROGRAMS).
Local Abbreviation fetch_uptime_kuma_status :=
  (Monitor.fetch_uptime_kuma_status PROGRAMS UPTIME_KUMA_URL
     UPTIME_KUMA_STATUS_PAGE_SLUG repr).
Local Abbreviation fetch_fails :=
  (Monitor.fetch_fails UPTIME_KUMA_URL UPTIME_KUMA_STATUS_PAGE_SLUG repr).
Local Abbreviation next_cache := (Polling.next_cache PROGRAMS).
Local Abbreviation cache_inv := (Polling.cache_inv PROGRAMS).
Local Abbreviation status_text := (Polling.status_text PROGRAMS).
Local Abbreviation update_status_loop :=
  (Polling.update_status_loop PROGRAMS UPTIME_KUMA_URL
     UPTIME_KUMA_STATUS_PAGE_SLUG repr).
Local Abbreviation run_ticks :=
  (Polling.run_ticks PROGRAMS UPTIME_KUMA_URL
     UPTIME_KUMA_STATUS_PAGE_SLUG repr).

(** The cache is written before anything in the task can raise. *)
Lemma cache_after_tick st w :
  cached_program_status (update_status_loop st w).1
  = next_cache (cached_program_status st) (fetch_uptime_kuma_status w).
Proof.
  unfold Polling.update_status_loop. by destruct (Polling.status_text _ _).
Qed.

Lemma next_cache_None_populated cached :
  dict_truthy cached = true → next_cache cached None = cached.
Proof. intros H. unfold Polling.next_cache. by rewrite H. Qed.

Lemma next_cache_None_empty cached :
  dict_truthy cached = false → next_cache cached None = all_offline.
Proof. intros H. unfold Polling.next_cache. by rewrite H. Qed.

Lemma next_cache_all_offline_empty cached :
  dict_truthy cached = false →
  next_cache cached (Some all_offline) = all_offline.
Proof.
  intros H. unfold Polling.next_cache. rewrite H. simpl.
  by destruct (dict_truthy all_offline).
Qed.

(** The one failure after which the loop keeps a populated cache: the fetch
    returned [None] (missing configuration, or a status page that answered
    with a status other than 200). *)
Lemma cache_kept_when_fetch_returns_None st w :
  fetch_uptime_kuma_status w = None →
  dict_truthy (cached_program_status st) = true →
  cached_program_status (update_status_loop st w).1 = cached_program_status st.
Proof.
  intros Hf Hc. rewrite cache_after_tick, Hf. by apply next_cache_None_populated.
Qed.

Lemma next_cache_complete cached latest :
  cached = [] ∨ complete cached →
  (∀ snapshot, latest = Some snapshot → complete snapshot) →
  complete (next_cache cached latest).
Proof.
  intros Hc Hl. unfold Polling.next_cache.
  assert (complete (if negb (dict_truthy cached) then all_offline else cached))
    as Hfallback.
  { destruct Hc as [->|Hc]; simpl; [apply all_offline_complete|].
    destruct (dict_truthy cached); simpl; [done|apply all_offline_complete]. }
  destruct latest as [snapshot|]; [|done].
  destruct (dict_truthy snapshot); [by apply Hl|done].
Qed.

Lemma foldM_add_status_part (cached : list (string * status)) parts :
  (∀ k, k ∈ dict_keys cached → k ∈ dict_keys PROGRAMS) →
  ∃ parts', foldM (add_status_part PROGRAMS) parts cached = Ok parts'.
Proof.
  revert parts. induction cached as [|[prog_id s] cached IH];
    intros parts Hk; simpl; [by eexists|].
  assert (is_Some (dict_get prog_id PROGRAMS)) as [prog_info ->].
  { apply dict_get_is_Some, Hk. by left. }
  simpl. apply IH. intros k Hin. apply Hk. by right.
Qed.

Lemma status_text_complete cached :
  complete cached → ∃ text, status_text cached = Ok text.
Proof.
  intros Hc. unfold Polling.status_text.
  destruct (foldM_add_status_part cached []) as [parts ->]; [|by eexists].
  intros k. by apply complete_elem_of.
Qed.

Lemma tick_complete st w :
  cache_inv st →
  complete (cached_program_status (update_status_loop st w).1)
  ∧ (update_status_loop st w).2 = Ok ().
Proof.
  intros Hinv.
  assert (complete (next_cache (cached_program_status st)
                      (fetch_uptime_kuma_status w))) as Hc.
  { apply next_cache_complete; [done|]. intros snapshot.
    apply fetch_complete. }
  split; [by rewrite cache_after_tick|].
  unfold Polling.update_status_loop.
  by destruct (status_text_complete _ Hc) as [text ->].
Qed.

Lemma run_ticks_inv ws st : cache_inv st → cache_inv (run_ticks ws st).
Proof.
  revert st. induction ws as [|w ws IH]; intros st Hinv; simpl; [done|].
  apply IH. right. by apply tick_complete.
Qed.

(** C6. Cold start: when the cache is empty and the fetch fails, in any of
    the ways it can, the cache after the run has every tracked service
    offline. *)
Theorem cold_start_all_offline (st : bot_state) (w : responses) :
  dict_truthy (cached_program_status st) = false →
  fetch_fails w = true →
  cached_program_status (update_status_loop st w).1 = all_offline
  ∧ complete (cached_program_status (update_status_loop st w).1)
  ∧ ∀ prog_id, prog_id ∈ dict_keys PROGRAMS →
      dict_get prog_id (cached_program_status (update_status_loop st w).1)
      = Some offline.
Proof.
  intros Hempty Hfail.
  assert (cached_program_status (update_status_loop st w).1 = all_offline)
    as ->.
  { rewrite cache_after_tick.
    destruct (fetch_fails_cases PROGRAMS _ _ _ _ Hfail) as [->| ->].
    - by apply next_cache_None_empty.
    - by apply next_cache_all_offline_empty. }
  split; [done|]. split; [apply all_offline_complete|apply all_offline_get].
Qed.

(** C9. After any number of runs from the empty cache, one more run leaves a
    cache whose keys are exactly those of [PROGRAMS], and the presence string
    is built without a [KeyError]: every [PROGRAMS[prog_id]] finds its key. *)
Theorem cache_keys_are_program_keys (ws : list responses) (w : responses) :
  let after := update_status_loop (run_ticks ws initial_state) w in
  NoDup (dict_keys (cached_program_status after.1))
  ∧ list_to_set (dict_keys (cached_program_status after.1))
    =@{gset string} list_to_set (dict_keys PROGRAMS)
  ∧ (∀ prog_id, prog_id ∈ dict_keys (cached_program_status after.1) →
       is_Some (dict_get prog_id PROGRAMS))
  ∧ after.2 = Ok ().
Proof.
  intros after.
  destruct (tick_complete (run_ticks ws initial_state) w) as [[Hnd Heq] Hok].
  { apply run_ticks_inv. by left. }
  split; [done|]. split; [done|]. split; [|done].
  intros prog_id Hin. apply dict_get_is_Some.
  by apply (complete_elem_of PROGRAMS (cached_program_status after.1)).
Qed.

End polling_facts.

(** ** The settings store *)

Section settings_facts.
Import Monitor Settings.
Variable PROGRAMS : list (string * program_info).

Local Abbreviation subscribed_programs := (Settings.subscribed_programs PROGRAMS).
Local Abbreviation toggle_subscription := (Settings.toggle_subscription PROGRAMS).
Local Abbreviation button_callback := (Settings.button_callback PROGRAMS).
Local Abbreviation lists_NoDup := (Settings.lists_NoDup PROGRAMS).

Lemma list_remove_first_absent x (l : list string) :
  x ∉ l → list_remove_first x l = l.
Proof.
  induction l as [|y l IH]; simpl; [done|].
  intros [Hne Hl]%not_elem_of_cons. rewrite decide_False by done.
  by rewrite IH.
Qed.

Lemma list_remove_first_snoc x (l : list string) :
  x ∉ l → list_remove_first x (l ++ [x]) = l.
Proof.
  induction l as [|y l IH]; simpl.
  - intros _. by rewrite decide_True.
  - intros [Hne Hl]%not_elem_of_cons. rewrite decide_False by done.
    by rewrite IH.
Qed.

Lemma list_remove_first_perm x (l : list string) :
  x ∈ l → x :: list_remove_first x l ≡ₚ l.
Proof.
  induction l as [|y l IH]; simpl; [by intros ?%elem_of_nil|].
  intros Hin. destruct (decide (x = y)) as [->|Hne]; [done|].
  apply elem_of_cons in Hin as [?|Hin]; [done|].
  rewrite Permutation_swap. by rewrite IH.
Qed.

Lemma NoDup_list_remove_first x (l : list string) :
  NoDup l → NoDup (list_remove_first x l) ∧ x ∉ list_remove_first x l.
Proof.
  intros Hnd. destruct (decide (x ∈ l)) as [Hin|Hnin].
  - pose proof (list_remove_first_perm x l Hin) as Hp.
    rewrite <- Hp in Hnd. by apply NoDup_cons in Hnd as [? ?].
  - by rewrite list_remove_first_absent.
Qed.

Lemma NoDup_toggle program_id (prefs : list string) :
  NoDup prefs → NoDup (toggle program_id prefs).
Proof.
  intros Hnd. unfold toggle. case_bool_decide as Hin.
  - by apply NoDup_list_remove_first.
  - apply NoDup_app. split; [done|]. split; [|apply NoDup_singleton].
    by intros x Hx ->%list_elem_of_singleton.
Qed.

(** Toggling twice gives the same programs back, the toggled one last when
    it was subscribed. *)
Lemma toggle_twice program_id (prefs : list string) :
  NoDup prefs → toggle program_id (toggle program_id prefs) ≡ₚ prefs.
Proof.
  intros Hnd. unfold toggle at 2. case_bool_decide as Hin.
  - destruct (NoDup_list_remove_first program_id prefs Hnd) as [_ Hout].
    unfold toggle. rewrite bool_decide_false by done.
    rewrite <- Permutation_cons_append.
    by apply list_remove_first_perm.
  - unfold toggle. rewrite bool_decide_true.
    + by rewrite list_remove_first_snoc.
    + apply elem_of_app. right. by apply list_elem_of_singleton.
Qed.

Lemma channel_of_set_channel guild_id channel_id settings :
  channel_of (set_channel guild_id channel_id settings) guild_id
  = Some channel_id.
Proof.
  unfold channel_of, set_channel.
  rewrite lookup_alter_eq.
  destruct (settings !! guild_id) as [entry|] eqn:Hl.
  - by rewrite Hl.
  - by rewrite lookup_insert_eq.
Qed.

Lemma subscribed_after_set_channel guild_id channel_id settings g :
  subscribed_programs (set_channel guild_id channel_id settings) g
  = subscribed_programs settings g.
Proof.
  unfold Settings.subscribed_programs, set_channel.
  destruct (decide (guild_id = g)) as [->|Hne].
  - rewrite lookup_alter_eq.
    destruct (settings !! g) as [entry|] eqn:Hl.
    + by rewrite Hl.
    + by rewrite lookup_insert_eq.
  - rewrite lookup_alter_ne by done.
    destruct (settings !! guild_id); [done|].
    by rewrite lookup_insert_ne.
Qed.

Lemma subscribed_after_toggle guild_id program_id settings :
  subscribed_programs (toggle_subscription guild_id program_id settings) guild_id
  = toggle program_id (subscribed_programs settings guild_id).
Proof.
  unfold Settings.toggle_subscription, Settings.subscribed_programs.
  rewrite lookup_alter_eq.
  destruct (settings !! guild_id) as [entry|] eqn:Hl.
  - by rewrite Hl.
  - by rewrite lookup_insert_eq.
Qed.

Lemma subscribed_after_toggle_other guild_id program_id settings g :
  guild_id ≠ g →
  subscribed_programs (toggle_subscription guild_id program_id settings) g
  = subscribed_programs settings g.
Proof.
  intros Hne. unfold Settings.toggle_subscription, Settings.subscribed_programs.
  rewrite lookup_alter_ne by done.
  destruct (settings !! guild_id); [done|].
  by rewrite lookup_insert_ne.
Qed.

(** The memory after a handler that had the permission: the store is
    changed before it is saved, and stays changed when saving raises. *)
Lemma settings_after_setup guild channel_id disk_ok st :
  server_settings (setup true guild channel_id disk_ok st).1
  = set_channel (pretty guild) channel_id (server_settings st).
Proof. unfold setup, save_settings. by destruct disk_ok. Qed.

Lemma settings_after_button guild custom_id disk_ok st :
  server_settings (button_callback true guild custom_id disk_ok st).1
  = toggle_subscription (pretty guild)
      (str_remove "prog_toggle_" custom_id) (server_settings st).
Proof. unfold Settings.button_callback, save_settings. by destruct disk_ok. Qed.

Lemma lists_NoDup_empty : NoDup (dict_keys PROGRAMS) → lists_NoDup ∅.
Proof. intros Hnd guild_id. unfold Settings.subscribed_programs. by rewrite lookup_empty. Qed.

Lemma lists_NoDup_set_channel guild_id channel_id settings :
  lists_NoDup settings → lists_NoDup (set_channel guild_id channel_id settings).
Proof. intros H g. rewrite subscribed_after_set_channel. apply H. Qed.

Lemma lists_NoDup_toggle guild_id program_id settings :
  lists_NoDup settings →
  lists_NoDup (toggle_subscription guild_id program_id settings).
Proof.
  intros H g. destruct (decide (guild_id = g)) as [<-|Hne].
  - rewrite subscribed_after_toggle. apply NoDup_toggle, H.
  - rewrite subscribed_after_toggle_other by done. apply H.
Qed.

(** C8. After [/setup] with channel [channel_id], the server's settings have
    that channel.  Toggling a program twice, by [toggle_subscription] or by
    two presses of one button, leaves the server subscribed to the same
    programs as before: the list read back is a permutation of the one read
    before, whose programs occur once each. *)
Theorem settings_round_trip (st : store) (guild channel_id : Z)
    (program_id custom_id : string) (disk_ok disk_ok' : bool) :
  NoDup (subscribed_programs (server_settings st) (pretty guild)) →
  channel_of (server_settings (setup true guild channel_id disk_ok st).1)
    (pretty guild) = Some channel_id
  ∧ subscribed_programs
      (toggle_subscription (pretty guild) program_id
         (toggle_subscription (pretty guild) program_id (server_settings st)))
      (pretty guild)
    ≡ₚ subscribed_programs (server_settings st) (pretty guild)
  ∧ subscribed_programs
      (server_settings
         (button_callback true guild custom_id disk_ok'
            (button_callback true guild custom_id disk_ok st).1).1)
      (pretty guild)
    ≡ₚ subscribed_programs (server_settings st) (pretty guild).
Proof.
  intros Hnd. split; [|split].
  - rewrite settings_after_setup. apply channel_of_set_channel.
  - rewrite !subscribed_after_toggle. by apply toggle_twice.
  - rewrite !settings_after_button, !subscribed_after_toggle.
    by apply toggle_twice.
Qed.

End settings_facts.

(** ** The webhook *)

Section webhook_facts.
Import Webhook.
Variable hmac_sha256_hexdigest : string → string → string.

Local Abbreviation handle_webhook := (Webhook.handle_webhook hmac_sha256_hexdigest).
Local Abbreviation expected_signature :=
  (Webhook.expected_signature hmac_sha256_hexdigest).

(** A header that is there and empty is falsy: the request is treated as one
    without the header. *)
Lemma empty_signature_is_not_verified req :
  signature_header req = Some "" → handle_webhook req = trigger_update.
Proof. intros H. unfold Webhook.handle_webhook. by rewrite H. Qed.

(** C10. A request without the header [X-Hub-Signature-256] is not verified:
    the update script runs and the answer is ['OK'] with status 200.  The
    answer is ['Unauthorized'] with status 401 exactly when the request has
    a signature and comparing it with the expected one gives [False]; the
    script does not run then. *)
Theorem unsigned_request_triggers_update (req : request) :
  (signature_header req = None →
   handle_webhook req = (Reply "OK" 200, [RunUpdateScript]))
  ∧ ((handle_webhook req).1 = Reply "Unauthorized" 401
     ↔ ∃ signature,
         signature_header req = Some signature
         ∧ str_truthy signature = true
         ∧ compare_digest signature (expected_signature req) = Ok false)
  ∧ ((handle_webhook req).1 = Reply "Unauthorized" 401 →
     (handle_webhook req).2 = []).
Proof.
  unfold Webhook.handle_webhook, trigger_update. split; [|split].
  - by intros ->.
  - split.
    + destruct (signature_header req) as [signature|]; [|done].
      destruct (str_truthy signature) eqn:Ht; [|done].
      destruct (compare_digest signature (expected_signature req))
        as [[|]|e] eqn:Hc; simpl; try done.
      intros _. by exists signature.
    + intros (signature & -> & -> & ->). done.
  - destruct (signature_header req) as [signature|]; [|done].
    destruct (str_truthy signature); [|done].
    by destruct (compare_digest signature (expected_signature req)) as [[|]|e].
Qed.

End webhook_facts.

(** ** The deployed bot on sample inputs *)

Section quinnbot_facts.
Import Monitor Polling Settings Webhook Quinnbot.

Lemma PROGRAMS_NoDup : NoDup (dict_keys PROGRAMS).
Proof. by apply (bool_decide_unpack _). Qed.

(** The scenario of the three services: last samples 1, 0 and 2. *)
Example healthy_scenario : fetch healthy = Some sample_snapshot.
Proof. reflexivity. Qed.

Example directory_503_is_None : fetch directory_503 = None.
Proof. reflexivity. Qed.

(** A status page without groups, or without the key [publicGroupList],
    gives the empty directory. *)
Example empty_directory :
  monitor_id_to_name_of sample_repr (JDict [("publicGroupList", JList [])]) = Ok []
  ∧ monitor_id_to_name_of sample_repr (JDict []) = Ok [].
Proof. by split. Qed.

(** A status page that is a JSON list has no [get]: reading it raises. *)
Example directory_of_wrong_shape :
  monitor_id_to_name_of sample_repr (JList []) = Raise AttributeError.
Proof. reflexivity. Qed.

(** One unreadable entry makes the whole feed unreadable. *)
Example heartbeats_of_wrong_shape :
  monitor_statuses_of
    (JDict [("heartbeatList",
             JDict [("1", JList [beat 1]); ("2", JList [JInt 5])])])
  = Raise AttributeError.
Proof. reflexivity. Qed.

(** C2. The directory call fails when the server cannot be reached and when
    the status page is not JSON; in both cases the fetch returns the
    all-offline snapshot and not [None]. *)
Theorem failed_directory_call_returns_snapshot :
  directory_call_fails sample_repr (directory_call unreachable) = true
  ∧ fetch unreachable = Some everything_offline
  ∧ directory_call_fails sample_repr (directory_call garbled_directory) = true
  ∧ fetch garbled_directory = Some everything_offline.
Proof. repeat split. Qed.

(** C1. With a populated cache and a monitoring server that cannot be
    reached, the run replaces the cache by the all-offline snapshot. *)
Theorem unreachable_monitor_replaces_cache :
  fetch_fails UPTIME_KUMA_URL UPTIME_KUMA_STATUS_PAGE_SLUG sample_repr
    unreachable = true
  ∧ dict_truthy (cached_program_status populated) = true
  ∧ cached_program_status (tick populated unreachable).1 = everything_offline
  ∧ cached_program_status (tick populated unreachable).1
    ≠ cached_program_status populated.
Proof. repeat split. by intros [=]. Qed.

(** The same cache is kept when the status page answers 503. *)
Example directory_503_keeps_cache :
  cached_program_status (tick populated directory_503).1 = sample_snapshot.
Proof. reflexivity. Qed.

Lemma snapshot_keys_are_tracked_services_witness :
  list_to_set (dict_keys (program_statuses_of PROGRAMS
                            [("1", JStr "Quinnflix")] [("1", online)]))
  =@{gset string} list_to_set (dict_keys PROGRAMS).
Proof.
  apply (snapshot_keys_are_tracked_services PROGRAMS UPTIME_KUMA_URL
           UPTIME_KUMA_STATUS_PAGE_SLUG sample_repr).
Defined.

Lemma latest_sample_decides_status_witness :
  ∃ monitor_statuses,
    monitor_statuses_of sample_heartbeats = Ok monitor_statuses
    ∧ dict_get "3" monitor_statuses = Some maintenance.
Proof.
  destruct (latest_sample_decides_status sample_heartbeats
              [("1", JList [beat 0; beat 1]);
               ("2", JList [beat 1; beat 0]);
               ("3", JList [beat 1; beat 2])])
    as (ms & Hms & Hlast & _).
  - reflexivity.
  - repeat apply Forall_cons_2; try apply Forall_nil_2; right.
    + by exists [beat 0], [("status", JInt 1)].
    + by exists [beat 1], [("status", JInt 0)].
    + by exists [beat 1], [("status", JInt 2)].
  - exists ms. split; [done|].
    apply (Hlast "3" [beat 1] (beat 2) (JInt 2)); [|reflexivity].
    do 2 apply list_elem_of_further. apply list_elem_of_here.
Defined.

Lemma absent_monitor_is_offline_witness :
  dict_get "vintage"
    (program_statuses_of PROGRAMS [("1", JStr "Quinnflix")] [("1", online)])
  = Some offline.
Proof.
  apply (absent_monitor_is_offline PROGRAMS UPTIME_KUMA_URL
           UPTIME_KUMA_STATUS_PAGE_SLUG sample_repr "vintage"
           {| name := "Vintage Studio Code";
              description := "Vintage Story game server";
              emoji := "🎮";
              monitor_name := "Vintage Studio Code" |}).
  - apply PROGRAMS_NoDup.
  - apply list_elem_of_further, list_elem_of_here.
  - intros m_id m_name [[= -> ->]|Hin]%elem_of_cons; [done|].
    by apply elem_of_nil in Hin.
Defined.

Lemma cold_start_all_offline_witness :
  cached_program_status (tick initial_state unreachable).1
  = all_offline PROGRAMS.
Proof.
  apply (cold_start_all_offline PROGRAMS UPTIME_KUMA_URL
           UPTIME_KUMA_STATUS_PAGE_SLUG sample_repr initial_state unreachable);
    reflexivity.
Defined.

Lemma heartbeat_failure_gives_all_offline_witness :
  ∃ snapshot,
    fetch heartbeat_500 = Some snapshot
    ∧ dict_get "quinnflix" snapshot = Some offline.
Proof.
  destruct (heartbeat_failure_gives_all_offline PROGRAMS UPTIME_KUMA_URL
              UPTIME_KUMA_STATUS_PAGE_SLUG sample_repr heartbeat_500)
    as (snapshot & Hfetch & _ & Hoff); [reflexivity..|].
  exists snapshot. split; [done|]. apply Hoff. apply list_elem_of_here.
Defined.

Lemma cache_keys_are_program_keys_witness :
  (tick (run_ticks PROGRAMS UPTIME_KUMA_URL UPTIME_KUMA_STATUS_PAGE_SLUG
           sample_repr [unreachable; healthy] initial_state)
     directory_503).2 = Ok ().
Proof.
  apply (cache_keys_are_program_keys PROGRAMS UPTIME_KUMA_URL
           UPTIME_KUMA_STATUS_PAGE_SLUG sample_repr
           [unreachable; healthy] directory_503).
Defined.

Lemma settings_round_trip_witness :
  channel_of (server_settings (setup true 42 7 true no_settings).1) (pretty 42)
  = Some 7.
Proof.
  apply (settings_round_trip PROGRAMS no_settings 42 7 "quinnflix"
           "prog_toggle_quinnflix" true true).
  unfold subscribed_programs, no_settings. simpl.
  rewrite lookup_empty. apply PROGRAMS_NoDup.
Defined.

Lemma unsigned_request_triggers_update_witness :
  handle_webhook sample_hmac {| signature_header := None; data := "{}" |}
  = (Reply "OK" 200, [RunUpdateScript]).
Proof.
  apply (unsigned_request_triggers_update sample_hmac
           {| signature_header := None; data := "{}" |}).
  reflexivity.
Defined.

End quinnbot_facts.

(** * Further properties *)

(** ** The fetch: name collisions, the directory, monitors without samples *)

Section monitor_more.
Import Monitor Invariants.
Variable PROGRAMS : list (string * program_info).
Variable UPTIME_KUMA_URL UPTIME_KUMA_STATUS_PAGE_SLUG : string.
Variable repr : json → string.

Local Abbreviation all_offline := (Monitor.all_offline PROGRAMS).
Local Abbreviation program_statuses_of := (Monitor.program_statuses_of PROGRAMS).
Local Abbreviation monitor_id_to_name_of := (Monitor.monitor_id_to_name_of repr).
Local Abbreviation fetch_uptime_kuma_status :=
  (Monitor.fetch_uptime_kuma_status PROGRAMS UPTIME_KUMA_URL
     UPTIME_KUMA_STATUS_PAGE_SLUG repr).
Local Abbreviation configured :=
  (Monitor.configured UPTIME_KUMA_URL UPTIME_KUMA_STATUS_PAGE_SLUG).

Lemma find_monitor_id_first (pre post : list (string * json)) m_id monitor_name :
  (∀ i n, (i, n) ∈ pre → n ≠ JStr monitor_name) →
  find_monitor_id (pre ++ (m_id, JStr monitor_name) :: post) monitor_name
  = Some m_id.
Proof.
  induction pre as [|[i n] pre IH]; simpl; intros Hpre.
  - by rewrite bool_decide_true.
  - destruct (py_eq_str n monitor_name) eqn:Heq.
    + exfalso. apply (Hpre i n); [by left|].
      destruct n; simpl in Heq; try done.
      by apply bool_decide_eq_true in Heq as ->.
    + apply IH. intros i' n' Hin. apply (Hpre i'). by right.
Qed.

Lemma program_status_first (pre post : list (string * json))
    (ms : list (string * status)) m_id prog_id prog_info :
  NoDup (dict_keys PROGRAMS) →
  (prog_id, prog_info) ∈ PROGRAMS →
  (∀ i n, (i, n) ∈ pre → n ≠ JStr (monitor_name prog_info)) →
  str_truthy m_id = true →
  dict_get prog_id
    (program_statuses_of
       (pre ++ (m_id, JStr (monitor_name prog_info)) :: post) ms)
  = Some (match dict_get m_id ms with Some s => s | None => offline end).
Proof.
  intros Hnd Hin Hpre Hid.
  rewrite (program_statuses_get PROGRAMS _ _ _ _ Hnd Hin).
  unfold program_status. rewrite find_monitor_id_first by done.
  by rewrite Hid.
Qed.

(** X1. When several monitors of the directory have the name of a tracked
    service, the first one decides: the service has the status of that
    monitor, and is offline when that monitor has no status, whatever the
    later monitors of the same name report. *)
Theorem first_matching_monitor_decides
    (pre post : list (string * json)) (ms : list (string * status))
    (m_id prog_id : string) (prog_info : program_info) :
  NoDup (dict_keys PROGRAMS) →
  (prog_id, prog_info) ∈ PROGRAMS →
  (∀ i n, (i, n) ∈ pre → n ≠ JStr (monitor_name prog_info)) →
  str_truthy m_id = true →
  dict_get prog_id
    (program_statuses_of
       (pre ++ (m_id, JStr (monitor_name prog_info)) :: post) ms)
  = Some (match dict_get m_id ms with Some s => s | None => offline end).
Proof. apply program_status_first. Qed.

Lemma directory_ok_set m_id m_name m2n :
  str_truthy m_id = true → py_truthy m_name = true →
  directory_ok m2n → directory_ok (dict_set m_id m_name m2n).
Proof.
  intros Hid Hname [Hnd Hall]. split; [by apply NoDup_dict_keys_set|].
  intros i n [[= -> ->]|Hin]%elem_of_dict_set; [done|by apply Hall].
Qed.

Lemma add_monitor_ok acc acc' monitor :
  add_monitor repr acc monitor = Ok acc' → directory_ok acc → directory_ok acc'.
Proof.
  unfold add_monitor.
  destruct (py_get "id" JNull monitor) as [id|]; [|done].
  cbn [mbind result_bind].
  destruct (py_get "name" (JStr "") monitor) as [nm|]; [|done].
  cbn [mbind result_bind].
  destruct (str_truthy (py_str repr id)) eqn:Hid; simpl;
    [|by intros [= <-]].
  destruct (py_truthy nm) eqn:Hnm; intros [= <-]; [|done].
  by apply directory_ok_set.
Qed.

Lemma foldM_add_monitor_ok monitors :
  ∀ acc acc', foldM (add_monitor repr) acc monitors = Ok acc' →
              directory_ok acc → directory_ok acc'.
Proof.
  induction monitors as [|m monitors IH]; intros acc acc'; cbn [foldM].
  - by intros [= <-].
  - destruct (add_monitor repr acc m) as [acc1|] eqn:Hadd; [|done].
    cbn [mbind result_bind]. intros Hfold Hacc.
    eapply IH; [done|]. by eapply add_monitor_ok.
Qed.

Lemma foldM_add_group_ok groups :
  ∀ acc acc', foldM (add_group repr) acc groups = Ok acc' →
              directory_ok acc → directory_ok acc'.
Proof.
  induction groups as [|g groups IH]; intros acc acc'; cbn [foldM].
  - by intros [= <-].
  - destruct (add_group repr acc g) as [acc1|] eqn:Hadd; [|done].
    cbn [mbind result_bind]. intros Hfold Hacc.
    eapply IH; [done|]. unfold add_group in Hadd.
    destruct (py_get "monitorList" (JList []) g) as [ml|]; [|done].
    cbn [mbind result_bind] in Hadd.
    destruct (py_iter ml) as [monitors|]; [|done].
    cbn [mbind result_bind] in Hadd.
    by eapply foldM_add_monitor_ok.
Qed.

Lemma monitor_id_to_name_ok (status_data : json) (m2n : list (string * json)) :
  monitor_id_to_name_of status_data = Ok m2n → directory_ok m2n.
Proof.
  unfold Monitor.monitor_id_to_name_of.
  destruct (py_get "publicGroupList" (JList []) status_data) as [gl|]; [|done].
  cbn [mbind result_bind].
  destruct (py_iter gl) as [groups|]; [|done].
  cbn [mbind result_bind]. intros Hfold.
  apply (foldM_add_group_ok groups [] m2n Hfold).
  split; [apply NoDup_nil_2|]. by intros i n ?%elem_of_nil.
Qed.

(** X2. In the directory built from a status page, no monitor id occurs
    twice, no id is the empty string and no name is falsy: a monitor whose
    name is missing, [null] or empty is left out. *)
Theorem directory_entries_are_named
    (status_data : json) (m2n : list (string * json)) :
  monitor_id_to_name_of status_data = Ok m2n →
  NoDup (dict_keys m2n)
  ∧ ∀ m_id m_name, (m_id, m_name) ∈ m2n →
      str_truthy m_id = true ∧ py_truthy m_name = true.
Proof. apply monitor_id_to_name_ok. Qed.



Lemma add_heartbeat_keys acc acc' k0 beats :
  add_heartbeat acc (k0, beats) = Ok acc' →
  acc' = acc ∨ (py_truthy beats = true ∧ ∃ s, acc' = dict_set k0 s acc).
Proof.
  unfold add_heartbeat. destruct (py_truthy beats); [|intros [= <-]; by left].
  destruct (py_len beats) as [n|]; [|done]. cbn [mbind result_bind].
  case_bool_decide; [|intros [= <-]; by left].
  destruct (py_last beats) as [latest|]; [|done]. cbn [mbind result_bind].
  destruct (py_get "status" JNull latest) as [sv|]; [|done].
  cbn [mbind result_bind]. intros [= <-]. right. split; [done|by eexists].
Qed.

Lemma foldM_add_heartbeat_keys (items : list (string * json)) :
  ∀ acc ms k,
    foldM add_heartbeat acc items = Ok ms →
    k ∈ dict_keys ms →
    k ∈ dict_keys acc ∨ ∃ beats, (k, beats) ∈ items ∧ py_truthy beats = true.
Proof.
  induction items as [|[k0 beats] items IH]; intros acc ms k; cbn [foldM].
  - intros [= <-] Hk. by left.
  - destruct (add_heartbeat acc (k0, beats)) as [acc1|] eqn:Hadd; [|done].
    cbn [mbind result_bind]. intros Hfold Hk.
    destruct (IH _ _ _ Hfold Hk) as [Hk1|(b & Hb & Ht)].
    + destruct (add_heartbeat_keys _ _ _ _ Hadd) as [->|(Ht & s & ->)];
        [by left|].
      apply elem_of_dict_keys_set in Hk1 as [->|?]; [|by left].
      right. exists beats. split; [by left|done].
    + right. exists b. split; [by right|done].
Qed.

(** X4. A monitor whose entry in the heartbeat feed is empty ([[]], [null])
    gets no status, so a tracked service matched to it is offline: no
    sample is not a fourth state. *)
Theorem monitor_without_samples_is_offline
    (heartbeat_data : json) (items : list (string * json))
    (ms : list (string * status)) (m_id : string) (beats : json)
    (pre post : list (string * json)) (prog_id : string)
    (prog_info : program_info) :
  (heartbeat_list ← py_get "heartbeatList" (JDict []) heartbeat_data;
   py_items heartbeat_list) = Ok items →
  monitor_statuses_of heartbeat_data = Ok ms →
  (m_id, beats) ∈ items →
  py_truthy beats = false →
  NoDup (dict_keys PROGRAMS) →
  (prog_id, prog_info) ∈ PROGRAMS →
  (∀ i n, (i, n) ∈ pre → n ≠ JStr (monitor_name prog_info)) →
  dict_get m_id ms = None
  ∧ dict_get prog_id
      (program_statuses_of
         (pre ++ (m_id, JStr (monitor_name prog_info)) :: post) ms)
    = Some offline.
Proof.
  intros Hitems Hms Hin Hfalsy Hnd Hprog Hpre.
  assert (dict_get m_id ms = None) as Hnone.
  { unfold monitor_statuses_of in Hms.
    destruct (py_get "heartbeatList" (JDict []) heartbeat_data) as [hl|];
      simpl in *; [|done].
    unfold py_items in *.
    destruct (as_dict hl) as [d|] eqn:Hd; simpl in *; [|done].
    injection Hitems as ->.
    apply dict_get_None. intros Hk.
    destruct (foldM_add_heartbeat_keys _ _ _ _ Hms Hk)
      as [?%elem_of_nil|(b & Hb & Ht)]; [done|].
    pose proof (as_dict_NoDup _ _ Hd) as Hnd'.
    apply (elem_of_dict_get _ _ _ Hnd') in Hb, Hin.
    rewrite Hb in Hin. injection Hin as ->. congruence. }
  split; [done|].
  rewrite (program_statuses_get PROGRAMS _ _ _ _ Hnd Hprog).
  unfold program_status. rewrite find_monitor_id_first by done.
  rewrite Hnone. by destruct (str_truthy m_id).
Qed.

End monitor_more.

(** ** The polling loop: what a run does to the cache and the presence *)

Section polling_more.
Import Monitor Polling.
Variable PROGRAMS : list (string * program_info).
Variable UPTIME_KUMA_URL UPTIME_KUMA_STATUS_PAGE_SLUG : string.
Variable repr : json → string.

Local Abbreviation all_offline := (Monitor.all_offline PROGRAMS).
Local Abbreviation program_statuses_of := (Monitor.program_statuses_of PROGRAMS).
Local Abbreviation fetch_uptime_kuma_status :=
  (Monitor.fetch_uptime_kuma_status PROGRAMS UPTIME_KUMA_URL
     UPTIME_KUMA_STATUS_PAGE_SLUG repr).
Local Abbreviation configured :=
  (Monitor.configured UPTIME_KUMA_URL UPTIME_KUMA_STATUS_PAGE_SLUG).
Local Abbreviation directory_call_fails := (Monitor.directory_call_fails repr).
Local Abbreviation fetch_fails :=
  (Monitor.fetch_fails UPTIME_KUMA_URL UPTIME_KUMA_STATUS_PAGE_SLUG repr).
Local Abbreviation next_cache := (Polling.next_cache PROGRAMS).
Local Abbreviation status_text := (Polling.status_text PROGRAMS).
Local Abbreviation update_status_loop :=
  (Polling.update_status_loop PROGRAMS UPTIME_KUMA_URL
     UPTIME_KUMA_STATUS_PAGE_SLUG repr).
Local Abbreviation run_ticks :=
  (Polling.run_ticks PROGRAMS UPTIME_KUMA_URL
     UPTIME_KUMA_STATUS_PAGE_SLUG repr).

Lemma dict_truthy_fill {A V : Type} (f : A → string) (g : A → V)
    (l : list A) (d : list (string * V)) :
  l ≠ [] ∨ dict_truthy d = true →
  dict_truthy (foldl (λ d a, dict_set (f a) (g a) d) d l) = true.
Proof.
  revert d. induction l as [|a l IH]; intros d; simpl.
  - by intros [?|?].
  - intros _. apply IH. right. apply dict_truthy_set.
Qed.

Lemma all_offline_truthy : PROGRAMS ≠ [] → dict_truthy all_offline = true.
Proof.
  intros Hne. apply (dict_truthy_fill id (λ _, offline)). left.
  unfold dict_keys. by destruct PROGRAMS.
Qed.

Lemma program_statuses_truthy m2n ms :
  PROGRAMS ≠ [] → dict_truthy (program_statuses_of m2n ms) = true.
Proof.
  intros Hne.
  apply (dict_truthy_fill fst (λ p, program_status m2n ms p.2)). by left.
Qed.

Lemma next_cache_truthy cached latest :
  dict_truthy latest = true → next_cache cached (Some latest) = latest.
Proof. intros H. unfold Polling.next_cache. by rewrite H. Qed.

(** X5. A fetch in which nothing goes wrong replaces the cache wholesale:
    the cache after the run is the snapshot the fetch returned, whatever the
    cache held before. *)
Theorem successful_fetch_replaces_cache (st st' : bot_state) (w : responses) :
  PROGRAMS ≠ [] →
  fetch_fails w = false →
  fetch_uptime_kuma_status w
  = Some (cached_program_status (update_status_loop st w).1)
  ∧ cached_program_status (update_status_loop st w).1
    = cached_program_status (update_status_loop st' w).1.
Proof.
  intros Hne Hok.
  destruct (fetch_succeeds PROGRAMS _ _ _ w Hok)
    as (sd & hd & m2n & ms & _ & _ & _ & _ & Hfetch).
  rewrite !(cache_after_tick PROGRAMS), Hfetch.
  by rewrite !next_cache_truthy by by apply program_statuses_truthy.
Qed.

(** X6. When the status page answers and the heartbeat call fails, the run
    overwrites the cache with the all-offline snapshot, also a cache that
    held statuses from an earlier run. *)
Theorem heartbeat_failure_overwrites_cache (st : bot_state) (w : responses) :
  PROGRAMS ≠ [] →
  configured = true →
  directory_call_fails (directory_call w) = false →
  heartbeat_call_fails (heartbeat_call w) = true →
  cached_program_status (update_status_loop st w).1 = all_offline.
Proof.
  intros Hne Hc Hd Hh.
  rewrite (cache_after_tick PROGRAMS).
  rewrite (heartbeat_failure PROGRAMS _ _ _ w Hc Hd Hh).
  by apply next_cache_truthy, all_offline_truthy.
Qed.

Lemma fetch_None_cases w :
  configured = false
  ∨ (∃ code body, directory_call w = Response code body ∧ code ≠ 200) →
  fetch_uptime_kuma_status w = None.
Proof.
  intros [Hc|(code & body & Hd & Hcode)].
  - by apply fetch_not_configured.
  - destruct configured eqn:Hc; [|by apply fetch_not_configured].
    by eapply fetch_directory_http_error.
Qed.

(** X7. The last known statuses are kept in two cases: the configuration is
    missing, or the status page answers with a status other than 200.  Then
    a populated cache is left as it is and the presence is published again
    from it. *)
Theorem http_error_keeps_cache (ws : list responses) (w : responses) :
  let st := run_ticks ws initial_state in
  configured = false
  ∨ (∃ code body, directory_call w = Response code body ∧ code ≠ 200) →
  dict_truthy (cached_program_status st) = true →
  cached_program_status (update_status_loop st w).1 = cached_program_status st
  ∧ (update_status_loop st w).2 = Ok ()
  ∧ ∃ text, status_text (cached_program_status st) = Ok text
            ∧ presence (update_status_loop st w).1 = Some text.
Proof.
  intros st Hnone Hpop.
  pose proof (fetch_None_cases w Hnone) as Hfetch.
  assert (Polling.cache_inv PROGRAMS st) as Hinv.
  { apply run_ticks_inv. by left. }
  assert (Monitor.complete PROGRAMS (cached_program_status st)) as Hc.
  { destruct Hinv as [Hnil|?]; [|done]. by rewrite Hnil in Hpop. }
  destruct (status_text_complete PROGRAMS _ Hc) as [text Htext].
  unfold Polling.update_status_loop. rewrite Hfetch.
  rewrite next_cache_None_populated by done. rewrite Htext. simpl.
  split; [done|]. split; [done|]. by exists text.
Qed.

Lemma unconfigured_tick st w :
  configured = false →
  cached_program_status st = [] ∨ cached_program_status st = all_offline →
  cached_program_status (update_status_loop st w).1 = all_offline.
Proof.
  intros Hc Hst. rewrite (cache_after_tick PROGRAMS).
  rewrite fetch_not_configured by done.
  unfold Polling.next_cache. destruct Hst as [-> | ->]; [done|].
  by destruct (dict_truthy all_offline).
Qed.

Lemma unconfigured_run ws st :
  configured = false →
  cached_program_status st = [] ∨ cached_program_status st = all_offline →
  cached_program_status (run_ticks ws st) = []
  ∨ cached_program_status (run_ticks ws st) = all_offline.
Proof.
  intros Hc. revert st. induction ws as [|w ws IH]; intros st Hst; simpl;
    [done|].
  apply IH. right. by apply unconfigured_tick.
Qed.

(** X8. Without a monitor URL or slug the cache never holds anything but the
    all-offline snapshot: after any number of runs from start-up, every
    further run leaves it all-offline, whatever the server would answer. *)
Theorem unconfigured_bot_is_all_offline (ws : list responses) (w : responses) :
  configured = false →
  cached_program_status
    (update_status_loop (run_ticks ws initial_state) w).1 = all_offline.
Proof.
  intros Hc. apply unconfigured_tick; [done|].
  apply unconfigured_run; [done|]. by left.
Qed.

End polling_more.

(** ** The presence string and the [/status] embed *)

Section status_more.
Import Monitor Polling Commands.
Variable PROGRAMS : list (string * program_info).
Variable UPTIME_KUMA_URL UPTIME_KUMA_STATUS_PAGE_SLUG : string.
Variable repr : json → string.
Hypothesis PROGRAMS_NoDup : NoDup (dict_keys PROGRAMS).

Local Abbreviation all_offline := (Monitor.all_offline PROGRAMS).
Local Abbreviation fetch_uptime_kuma_status :=
  (Monitor.fetch_uptime_kuma_status PROGRAMS UPTIME_KUMA_URL
     UPTIME_KUMA_STATUS_PAGE_SLUG repr).
Local Abbreviation next_cache := (Polling.next_cache PROGRAMS).
Local Abbreviation update_status_loop :=
  (Polling.update_status_loop PROGRAMS UPTIME_KUMA_URL
     UPTIME_KUMA_STATUS_PAGE_SLUG repr).
Local Abbreviation run_ticks :=
  (Polling.run_ticks PROGRAMS UPTIME_KUMA_URL
     UPTIME_KUMA_STATUS_PAGE_SLUG repr).
Local Abbreviation status_command :=
  (Commands.status_command PROGRAMS UPTIME_KUMA_URL
     UPTIME_KUMA_STATUS_PAGE_SLUG repr).
Local Abbreviation link_fields :=
  (Commands.link_fields UPTIME_KUMA_URL UPTIME_KUMA_STATUS_PAGE_SLUG).

Lemma all_offline_keys : dict_keys all_offline = dict_keys PROGRAMS.
Proof.
  pose proof (dict_keys_fill id (λ _ : string, offline) (dict_keys PROGRAMS) [])
    as H.
  rewrite list_fmap_id in H. by apply H.
Qed.

Lemma fetch_keys w snapshot :
  fetch_uptime_kuma_status w = Some snapshot →
  dict_keys snapshot = dict_keys PROGRAMS.
Proof.
  destruct (fetch_cases PROGRAMS UPTIME_KUMA_URL UPTIME_KUMA_STATUS_PAGE_SLUG
              repr w) as [->|[->|(m2n & ms & ->)]]; [done| |];
    intros [= <-]; [apply all_offline_keys|by apply program_statuses_keys].
Qed.

Lemma next_cache_keys cached w :
  cached = [] ∨ dict_keys cached = dict_keys PROGRAMS →
  dict_keys (next_cache cached (fetch_uptime_kuma_status w))
  = dict_keys PROGRAMS.
Proof.
  intros Hc. unfold Polling.next_cache.
  assert (dict_keys (if negb (dict_truthy cached) then all_offline else cached)
          = dict_keys PROGRAMS) as Hfallback.
  { destruct Hc as [->|Hc]; simpl; [apply all_offline_keys|].
    destruct (dict_truthy cached); simpl; [done|apply all_offline_keys]. }
  destruct (fetch_uptime_kuma_status w) as [snapshot|] eqn:Hf; [|done].
  destruct (dict_truthy snapshot); [by eapply fetch_keys|done].
Qed.

Lemma run_ticks_keys ws st :
  cached_program_status st = []
  ∨ dict_keys (cached_program_status st) = dict_keys PROGRAMS →
  cached_program_status (run_ticks ws st) = []
  ∨ dict_keys (cached_program_status (run_ticks ws st)) = dict_keys PROGRAMS.
Proof.
  revert st. induction ws as [|w ws IH]; intros st Hst; simpl; [done|].
  apply IH. right. rewrite (cache_after_tick PROGRAMS).
  by apply next_cache_keys.
Qed.

(** A cache with the keys of [PROGRAMS] is [PROGRAMS] with a status in
    the place of each program. *)
Lemma cache_is_zip (cached : list (string * status)) :
  dict_keys cached = dict_keys PROGRAMS →
  cached = zip (dict_keys PROGRAMS) cached.*2
  ∧ length cached.*2 = length PROGRAMS.
Proof.
  unfold dict_keys. intros Hk. split.
  - rewrite <- Hk. by rewrite zip_fst_snd.
  - rewrite length_fmap, <- (length_fmap fst cached), Hk. apply length_fmap.
Qed.

Lemma foldM_add_status_part_zip (ps : list (string * program_info)) :
  (∀ p, p ∈ ps → p ∈ PROGRAMS) →
  ∀ (statuses : list status) (parts : list string),
    length statuses = length ps →
    foldM (add_status_part PROGRAMS) parts (zip ps.*1 statuses)
    = Ok (parts ++ zip_with (λ p s, emoji p.2 +:+ status_emojis s) ps statuses)%list.
Proof.
  induction ps as [|[prog_id info] ps IH]; intros Hsub statuses parts Hlen.
  - destruct statuses; [|done]. simpl. by rewrite app_nil_r.
  - destruct statuses as [|s statuses]; [done|]. simpl.
    rewrite (elem_of_dict_get prog_id info PROGRAMS PROGRAMS_NoDup)
      by (apply Hsub; by left).
    simpl. rewrite IH.
    + by rewrite <- app_assoc.
    + intros p Hp. apply Hsub. by right.
    + by injection Hlen.
Qed.

Lemma foldM_add_status_field_zip (ps : list (string * program_info)) :
  (∀ p, p ∈ ps → p ∈ PROGRAMS) →
  ∀ (statuses : list status) (fields : list embed_field),
    length statuses = length ps →
    foldM (add_status_field PROGRAMS) fields (zip ps.*1 statuses)
    = Ok (fields
          ++ zip_with (λ p s, {| field_name := emoji p.2 +:+ " " +:+ name p.2;
                                 field_value := status_map s;
                                 inline := true |}) ps statuses)%list.
Proof.
  induction ps as [|[prog_id info] ps IH]; intros Hsub statuses fields Hlen.
  - destruct statuses; [|done]. simpl. by rewrite app_nil_r.
  - destruct statuses as [|s statuses]; [done|]. simpl.
    rewrite (elem_of_dict_get prog_id info PROGRAMS PROGRAMS_NoDup)
      by (apply Hsub; by left).
    simpl. rewrite IH.
    + by rewrite <- app_assoc.
    + intros p Hp. apply Hsub. by right.
    + by injection Hlen.
Qed.

(** X9. After every run of the task, from start-up on, the cache lists the
    programs in the order of [PROGRAMS], and the presence that is published
    has one part for each program, in that order: the program's emoji
    followed by the emoji of its cached status. *)
Theorem presence_follows_cache (ws : list responses) (w : responses) :
  let after := (update_status_loop (run_ticks ws initial_state) w).1 in
  dict_keys (cached_program_status after) = dict_keys PROGRAMS
  ∧ presence after
    = Some (join " | "
              (zip_with (λ p s, emoji p.2 +:+ status_emojis s)
                 PROGRAMS (cached_program_status after).*2)).
Proof.
  intros after. unfold after, Polling.update_status_loop.
  set (cached := Polling.next_cache PROGRAMS _ _).
  assert (dict_keys cached = dict_keys PROGRAMS) as Hk.
  { apply next_cache_keys, run_ticks_keys. by left. }
  assert (Polling.status_text PROGRAMS cached
          = Ok (join " | " (zip_with (λ p s, emoji p.2 +:+ status_emojis s)
                              PROGRAMS cached.*2))) as ->.
  { unfold Polling.status_text. destruct (cache_is_zip _ Hk) as [Hzip Hlen].
    rewrite Hzip at 1. unfold dict_keys.
    by rewrite (foldM_add_status_part_zip PROGRAMS (λ p H, H) cached.*2 [] Hlen). }
  done.
Qed.

(** X10. The [/status] command, in any state the task can have left and
    whatever the server answers: it raises no [KeyError]; its embed has,
    after the link to the status page, one field for each program, in the
    order of [PROGRAMS], with the program's cached status.  It fetches only
    when the cache is empty: a populated cache is shown as it is. *)
Theorem status_lists_every_program (ws : list responses) (w : responses) :
  let st := run_ticks ws initial_state in
  let after := status_command st w in
  dict_keys (cached_program_status after.1) = dict_keys PROGRAMS
  ∧ after.2
    = Ok (link_fields
          ++ zip_with (λ p s, {| field_name := emoji p.2 +:+ " " +:+ name p.2;
                                 field_value := status_map s;
                                 inline := true |})
               PROGRAMS (cached_program_status after.1).*2)%list
  ∧ (dict_truthy (cached_program_status st) = true → after.1 = st).
Proof.
  intros st after.
  assert (cached_program_status st = []
          ∨ dict_keys (cached_program_status st) = dict_keys PROGRAMS) as Hst.
  { apply run_ticks_keys. by left. }
  assert (∀ st1, dict_keys (cached_program_status st1) = dict_keys PROGRAMS →
            foldM (add_status_field PROGRAMS) link_fields
              (cached_program_status st1)
            = Ok (link_fields
                  ++ zip_with (λ p s, {| field_name := emoji p.2 +:+ " " +:+ name p.2;
                                         field_value := status_map s;
                                         inline := true |})
                       PROGRAMS (cached_program_status st1).*2)%list) as Hfields.
  { intros st1 Hk. destruct (cache_is_zip _ Hk) as [Hzip Hlen].
    rewrite Hzip at 1. unfold dict_keys.
    by rewrite (foldM_add_status_field_zip PROGRAMS (λ p H, H) _ _ Hlen). }
  unfold after, Commands.status_command.
  destruct (dict_truthy (cached_program_status st)) eqn:Hpop; simpl.
  - assert (dict_keys (cached_program_status st) = dict_keys PROGRAMS) as Hk.
    { destruct Hst as [Hnil|?]; [|done]. by rewrite Hnil in Hpop. }
    split; [done|]. split; [by apply Hfields|done].
  - destruct (tick_complete PROGRAMS UPTIME_KUMA_URL
                UPTIME_KUMA_STATUS_PAGE_SLUG repr st w) as [_ Hok].
    { apply run_ticks_inv. by left. }
    destruct (update_status_loop st w) as [st1 ran] eqn:Htick.
    simpl in Hok. subst ran. simpl.
    assert (dict_keys (cached_program_status st1) = dict_keys PROGRAMS) as Hk.
    { replace st1 with (update_status_loop st w).1 by by rewrite Htick.
      rewrite (cache_after_tick PROGRAMS). by apply next_cache_keys. }
    split; [done|]. split; [by apply Hfields|done].
Qed.

End status_more.

(** ** The settings store: one toggle, other servers, the file *)

Section settings_more.
Import Monitor Settings.
Variable PROGRAMS : list (string * program_info).

Local Abbreviation subscribed_programs := (Settings.subscribed_programs PROGRAMS).
Local Abbreviation toggle_subscription := (Settings.toggle_subscription PROGRAMS).
Local Abbreviation button_callback := (Settings.button_callback PROGRAMS).

Lemma elem_of_list_remove_first x y (l : list string) :
  NoDup l → y ∈ list_remove_first x l ↔ y ∈ l ∧ y ≠ x.
Proof.
  intros Hnd. destruct (decide (x ∈ l)) as [Hin|Hnin].
  - destruct (NoDup_list_remove_first x l Hnd) as [_ Hout].
    rewrite <- (list_remove_first_perm x l Hin) at 2.
    rewrite elem_of_cons. split.
    + intros Hy. split; [by right|]. by intros ->.
    + by intros [[?|?] ?].
  - rewrite list_remove_first_absent by done. split; [|by intros [? _]].
    intros Hy. split; [done|]. by intros ->.
Qed.

Lemma elem_of_toggle p q (l : list string) :
  NoDup l → q ∈ toggle p l ↔ (q = p ∧ p ∉ l) ∨ (q ≠ p ∧ q ∈ l).
Proof.
  intros Hnd. unfold toggle. case_bool_decide as Hin.
  - rewrite elem_of_list_remove_first by done. split.
    + intros [? ?]. by right.
    + intros [[_ ?]|[? ?]]; done.
  - rewrite elem_of_app, list_elem_of_singleton. split.
    + intros [Hq| ->]; [|by left]. right. split; [|done]. by intros ->.
    + intros [[-> _]|[_ ?]]; [by right|by left].
Qed.

(** X11. One press of a program's button flips that program and no other:
    the program is subscribed after the press exactly when it was not
    before, every other program is subscribed exactly when it was, and the
    list still has no program twice. *)
Theorem toggle_flips_one_program (st : store) (guild : Z)
    (custom_id : string) (disk_ok : bool) :
  let program_id := str_remove "prog_toggle_" custom_id in
  let before := subscribed_programs (server_settings st) (pretty guild) in
  let after :=
    subscribed_programs
      (server_settings (button_callback true guild custom_id disk_ok st).1)
      (pretty guild) in
  NoDup before →
  (program_id ∈ after ↔ program_id ∉ before)
  ∧ (∀ q, q ≠ program_id → (q ∈ after ↔ q ∈ before))
  ∧ NoDup after.
Proof.
  intros program_id before after Hnd. unfold after.
  rewrite (settings_after_button PROGRAMS), (subscribed_after_toggle PROGRAMS).
  fold program_id before. split; [|split].
  - rewrite elem_of_toggle by done. split.
    + intros [[_ ?]|[? _]]; done.
    + intros ?. by left.
  - intros q Hq. rewrite elem_of_toggle by done. split.
    + intros [[? _]|[_ ?]]; done.
    + intros ?. by right.
  - by apply NoDup_toggle.
Qed.

Lemma channel_of_toggle guild_id program_id settings g :
  channel_of (toggle_subscription guild_id program_id settings) g
  = channel_of settings g.
Proof.
  unfold Settings.toggle_subscription, channel_of.
  destruct (decide (guild_id = g)) as [->|Hne].
  - rewrite lookup_alter_eq.
    destruct (settings !! g) as [entry|] eqn:Hl.
    + by rewrite Hl.
    + by rewrite lookup_insert_eq.
  - rewrite lookup_alter_ne by done.
    destruct (settings !! guild_id); [done|].
    by rewrite lookup_insert_ne.
Qed.

Lemma channel_of_set_channel_other guild_id channel_id settings g :
  guild_id ≠ g →
  channel_of (set_channel guild_id channel_id settings) g = channel_of settings g.
Proof.
  intros Hne. unfold set_channel, channel_of.
  rewrite lookup_alter_ne by done.
  destruct (settings !! guild_id); [done|].
  by rewrite lookup_insert_ne.
Qed.

(** X12. Each handler changes one thing of one server.  [/setup] leaves the
    subscriptions of every server and the channel of every other server as
    they are; a button press leaves the channel of every server and the
    subscriptions of every other server as they are. *)
Theorem handlers_change_one_field (st : store) (guild other channel_id : Z)
    (custom_id : string) (disk_ok : bool) :
  let after_setup :=
    server_settings (setup true guild channel_id disk_ok st).1 in
  let after_press :=
    server_settings (button_callback true guild custom_id disk_ok st).1 in
  subscribed_programs after_setup (pretty other)
  = subscribed_programs (server_settings st) (pretty other)
  ∧ channel_of after_press (pretty other)
    = channel_of (server_settings st) (pretty other)
  ∧ (other ≠ guild →
     channel_of after_setup (pretty other)
     = channel_of (server_settings st) (pretty other)
     ∧ subscribed_programs after_press (pretty other)
       = subscribed_programs (server_settings st) (pretty other)).
Proof.
  intros after_setup after_press. unfold after_setup, after_press.
  rewrite settings_after_setup, (settings_after_button PROGRAMS).
  split; [apply subscribed_after_set_channel|].
  split; [apply channel_of_toggle|].
  intros Hne.
  assert (pretty guild ≠ pretty other) as Hne'.
  { intros Heq. apply Hne. symmetry. by apply (inj pretty). }
  split; [by apply channel_of_set_channel_other|].
  by apply subscribed_after_toggle_other.
Qed.

End settings_more.

(** ** Button ids and the subscription view *)

Section view_more.
Import Monitor Settings View.
Variable PROGRAMS : list (string * program_info).

Local Abbreviation subscribed_programs := (Settings.subscribed_programs PROGRAMS).
Local Abbreviation toggle_subscription := (Settings.toggle_subscription PROGRAMS).
Local Abbreviation ProgramSelectView := (View.ProgramSelectView PROGRAMS).
Local Abbreviation press := (View.press PROGRAMS).
Local Abbreviation shows := (View.shows PROGRAMS).
Local Abbreviation plain_ids := (View.plain_ids PROGRAMS).

Lemma prefix_app (p s : string) : String.prefix p (p +:+ s) = true.
Proof.
  induction p as [|c p IH]; simpl; [by destruct s|].
  destruct (Ascii.ascii_dec c c); [done|congruence].
Qed.

Lemma remove_all_absent (pat s : string) :
  Text.contains pat s = false → remove_all_from pat 0 s = s.
Proof.
  induction s as [|c s IH]; [done|].
  cbn [Text.contains remove_all_from].
  intros [Hp Hs]%orb_false_elim. rewrite Hp. f_equal. by apply IH.
Qed.

Lemma remove_all_skip (pat t s : string) :
  remove_all_from pat (String.length t) (t +:+ s) = remove_all_from pat 0 s.
Proof. induction t as [|c t IH]; simpl; [by destruct s|done]. Qed.

Lemma str_remove_prefixed (pat s : string) :
  Text.contains pat s = false → str_remove pat (pat +:+ s) = s.
Proof.
  intros Habs. destruct pat as [|c p] eqn:Hpat; [done|].
  unfold str_remove. change (String c p +:+ s) with (String c (p +:+ s)).
  cbn [remove_all_from].
  change (String c (p +:+ s)) with (String c p +:+ s).
  rewrite prefix_app.
  replace (String.length (String c p) - 1)%nat with (String.length p)
    by (simpl; lia).
  rewrite remove_all_skip. by apply remove_all_absent.
Qed.

(** X13. The id of a button gives its program back: removing ["prog_toggle_"]
    from the id made for a program returns the program, and a text without
    the pattern is returned as it is, for any pattern in the place of
    ["prog_toggle_"], when the program's id does not have the pattern inside
    it. *)
Theorem button_id_gives_program_back (pat s : string) :
  Text.contains pat s = false →
  str_remove pat (pat +:+ s) = s ∧ str_remove pat s = s.
Proof.
  intros Habs. split; [by apply str_remove_prefixed|].
  destruct pat; [done|]. by apply remove_all_absent.
Qed.

Lemma style_for_success b : style_for b = success ↔ b = true.
Proof. by destruct b. Qed.

Lemma restyle_shows (ps : list (string * program_info)) (bs : list button)
    (prefs : list string) :
  Forall (λ item : string * program_info,
            Text.contains "prog_toggle_" item.1 = false) ps →
  Forall2 (λ (item : string * program_info) (b : button),
             custom_id b = "prog_toggle_" +:+ item.1
             ∧ label b = name item.2) ps bs →
  Forall2 (λ (item : string * program_info) (b : button),
             custom_id b = "prog_toggle_" +:+ item.1
             ∧ label b = name item.2
             ∧ (style b = success ↔ item.1 ∈ prefs))
          ps (restyle prefs <$> bs).
Proof.
  intros Hplain Hbs. revert Hplain.
  induction Hbs as [|item b ps bs [Hid Hlabel] _ IH]; intros Hplain; simpl.
  - constructor.
  - apply Forall_cons in Hplain as [Hitem Hplain].
    constructor; [|by apply IH].
    unfold restyle. cbn [custom_id label style]. split; [done|]. split; [done|].
    rewrite style_for_success, Hid, str_remove_prefixed by done.
    apply bool_decide_eq_true.
Qed.

(** X14. The view shows what is stored.  A new view has one button for each
    program, in the order of [PROGRAMS], green exactly when the server is
    subscribed to the program.  After a press that is saved, the server's
    list is the old one with the pressed program toggled, and the buttons
    are again green exactly for the subscribed programs. *)
Theorem view_shows_subscriptions :
  plain_ids →
  (∀ (guild : Z) (settings : gmap string server_entry),
     shows (ProgramSelectView guild settings) settings)
  ∧ (∀ (v : view) (settings0 : gmap string server_entry)
       (pressed : string) (st : store),
       shows v settings0 →
       let r := press true v pressed true st in
       r.2 = Ok EditMessage
       ∧ subscribed_programs (server_settings r.1.1) (guild_id v)
         = toggle (str_remove "prog_toggle_" pressed)
             (subscribed_programs (server_settings st) (guild_id v))
       ∧ shows r.1.2 (server_settings r.1.1)).
Proof.
  intros Hplain. split.
  - intros guild settings. unfold View.shows, View.ProgramSelectView. simpl.
    apply Forall2_fmap_r, Forall_Forall2_diag, Forall_forall.
    intros [program_id info] _. simpl. split; [done|]. split; [done|].
    rewrite style_for_success. apply bool_decide_eq_true.
  - intros v settings0 pressed st Hv r. unfold r, View.press. simpl.
    split; [done|]. split; [apply subscribed_after_toggle|].
    unfold View.shows. simpl. apply restyle_shows; [done|].
    eapply Forall2_impl; [exact Hv|]. by intros item b (? & ? & _).
Qed.

End view_more.

(** ** The welcome message *)

Section welcome_more.
Import Commands.

Lemma list_find_first {A : Type} (P : A → Prop) `{!∀ x, Decision (P x)}
    (pre post : list A) (x : A) :
  Forall (λ y, ¬ P y) pre → P x →
  list_find P (pre ++ x :: post) = Some (length pre, x).
Proof.
  intros Hpre Hx. apply list_find_Some. split; [|split; [done|]].
  - by rewrite lookup_app_r, Nat.sub_diag by lia.
  - intros j y Hj Hlt. rewrite lookup_app_l in Hj by done.
    rewrite Forall_forall in Hpre. apply Hpre.
    by eapply list_elem_of_lookup_2.
Qed.

(** X15. Where the welcome goes when the bot joins a server: only to a
    channel in which the bot may send; to the system channel when the bot
    may send there, otherwise to the first text channel in which it may;
    and it is sent nowhere exactly when the bot may send in none of them. *)
Theorem welcome_goes_where_bot_may_send (g : guild) :
  (∀ c, welcome_target g = Some c →
        can_send c = true
        ∧ (system_channel g = Some c ∨ c ∈ text_channels g))
  ∧ (∀ c, system_channel g = Some c → can_send c = true →
          welcome_target g = Some c)
  ∧ (∀ pre c post,
       (∀ s, system_channel g = Some s → can_send s = false) →
       text_channels g = (pre ++ c :: post)%list →
       Forall (λ c', can_send c' = false) pre →
       can_send c = true →
       welcome_target g = Some c)
  ∧ (welcome_target g = None
     ↔ (∀ s, system_channel g = Some s → can_send s = false)
       ∧ Forall (λ c, can_send c = false) (text_channels g)).
Proof.
  assert (∀ c, snd <$> list_find (λ c, can_send c = true) (text_channels g)
               = Some c → can_send c = true ∧ c ∈ text_channels g) as Hfirst.
  { intros c Hc.
    destruct (list_find _ _) as [[i c']|] eqn:Hfind; [|done].
    injection Hc as ->. apply list_find_Some in Hfind as (Hl & Hs & _).
    split; [done|]. by eapply list_elem_of_lookup_2. }
  assert (snd <$> list_find (λ c, can_send c = true) (text_channels g) = None
          ↔ Forall (λ c, can_send c = false) (text_channels g)) as Hnone.
  { rewrite fmap_None, list_find_None. apply Forall_iff.
    intros c. by destruct (can_send c). }
  unfold welcome_target. split; [|split; [|split; [|split]]].
  - intros c Hc.
    assert (can_send c = true
            ∧ (system_channel g = Some c ∨ c ∈ text_channels g)) as [? ?];
      [|done].
    destruct (system_channel g) as [s|].
    + destruct (can_send s) eqn:Hs.
      * injection Hc as <-. split; [done|by left].
      * destruct (Hfirst c Hc). split; [done|by right].
    + destruct (Hfirst c Hc). split; [done|by right].
  - intros c -> Hc. by rewrite Hc.
  - intros pre c post Hsys Htext Hpre Hc.
    assert (snd <$> list_find (λ c, can_send c = true) (text_channels g)
            = Some c) as Hfind.
    { rewrite Htext, (list_find_first _ pre post c); [done| |done].
      eapply Forall_impl; [exact Hpre|]. intros c' Hc'. by rewrite Hc'. }
    destruct (system_channel g) as [s|]; [|done].
    by rewrite (Hsys s).
  - intros Htarget. split.
    + destruct (system_channel g) as [s|]; [|done].
      destruct (can_send s) eqn:Hs; [done|]. by intros s' [= <-].
    + apply Hnone. destruct (system_channel g) as [s|]; [|done].
      by destruct (can_send s).
  - intros [Hsys Htext]. apply Hnone in Htext.
    destruct (system_channel g) as [s|]; [|done].
    by rewrite (Hsys s).
Qed.

End welcome_more.

(** ** Announcements *)

Section announce_more.
Import Monitor Settings Commands.
Variable PROGRAMS : list (string * program_info).
Variable OWNER_ID : Z.
Variable get_guild : Z → option guild.
Variable py_int : string → option Z.

Local Abbreviation deliver_to := (Commands.deliver_to get_guild py_int).
Local Abbreviation unsubscribed := (Commands.unsubscribed PROGRAMS).
Local Abbreviation announce_to := (Commands.announce_to PROGRAMS get_guild py_int).
Local Abbreviation text_announce_to :=
  (Commands.text_announce_to PROGRAMS get_guild py_int).
Local Abbreviation announcement_embed := (Commands.announcement_embed PROGRAMS).
Local Abbreviation announce :=
  (Commands.announce PROGRAMS OWNER_ID get_guild py_int).
Local Abbreviation admissible :=
  (Commands.admissible PROGRAMS get_guild py_int).
Local Abbreviation tally_ok := (Commands.tally_ok PROGRAMS get_guild py_int).

(** The three ways the [try] block for one server ends. *)
Lemma deliver_to_cases e t guild_id channel_id :
  deliver_to e t guild_id channel_id = t
  ∨ deliver_to e t guild_id channel_id = failed t
  ∨ (deliver_to e t guild_id channel_id
     = sent {| to_guild := guild_id; to_channel := channel_id;
               sent_embed := e |} t
     ∧ ∃ z g c, py_int guild_id = Some z ∧ get_guild z = Some g
                ∧ get_channel g channel_id = Some c
                ∧ can_send c = true ∧ send_fails c = false).
Proof.
  unfold Commands.deliver_to.
  destruct (py_int guild_id) as [z|] eqn:Hz; [|right; by left].
  destruct (get_guild z) as [g|] eqn:Hg; [|by left].
  destruct (get_channel g channel_id) as [c|] eqn:Hc; [|right; by left].
  destruct (can_send c) eqn:Hcan; [|right; by left].
  destruct (send_fails c) eqn:Hfail; [right; by left|].
  right. right. split; [done|]. by exists z, g, c.
Qed.

Lemma deliver_to_ok program e items t guild_id settings channel_id :
  (guild_id, settings) ∈ items →
  channel settings = Some channel_id →
  (given program = true → unsubscribed program settings = false) →
  tally_ok program e items t →
  tally_ok program e items (deliver_to e t guild_id channel_id).
Proof.
  intros Hin Hch Hsub [Hcount Hadm].
  destruct (deliver_to_cases e t guild_id channel_id)
    as [->|[->|[-> (z & g & c & Hz & Hg & Hc & Hcan & Hfail)]]]; [done|done|].
  split; simpl.
  - rewrite length_app. simpl. lia.
  - intros d [Hd| ->%list_elem_of_singleton]%elem_of_app; [by apply Hadm|].
    by exists settings, z, g, c.
Qed.

Lemma announce_to_ok program e items t item :
  item ∈ items →
  tally_ok program e items t →
  tally_ok program e items (announce_to program e t item)
  ∧ ∀ d, d ∈ outbox (announce_to program e t item) →
         d ∈ outbox t ∨ to_channel d ≠ 0.
Proof.
  destruct item as [guild_id settings]. intros Hin Hok.
  unfold Commands.announce_to.
  destruct (channel settings) as [channel_id|] eqn:Hch;
    [|split; [done|by left]].
  destruct (channel_id =? 0) eqn:Hz; [split; [done|by left]|].
  destruct (given program && unsubscribed program settings) eqn:Hsub;
    [split; [done|by left]|].
  split.
  - apply (deliver_to_ok program e items t guild_id settings); [done..| |done].
    intros Hg. by rewrite Hg in Hsub.
  - intros d Hd.
    destruct (deliver_to_cases e t guild_id channel_id)
      as [Heq|[Heq|[Heq _]]]; rewrite Heq in Hd; [by left..|].
    simpl in Hd. apply elem_of_app in Hd as [?| ->%list_elem_of_singleton];
      [by left|]. right. simpl. lia.
Qed.

Lemma text_announce_to_ok program e items t item :
  item ∈ items →
  tally_ok program e items t →
  tally_ok program e items (text_announce_to program e t item).
Proof.
  destruct item as [guild_id settings]. intros Hin Hok.
  unfold Commands.text_announce_to.
  destruct (channel settings) as [channel_id|] eqn:Hch; [|done].
  destruct (given program && unsubscribed program settings) eqn:Hsub; [done|].
  apply (deliver_to_ok program e items t guild_id settings); [done..| |done].
  intros Hg. by rewrite Hg in Hsub.
Qed.

Lemma foldl_announce_to_ok program e items rest :
  ∀ t, (∀ item, item ∈ rest → item ∈ items) →
       tally_ok program e items t →
       (∀ d, d ∈ outbox t → to_channel d ≠ 0) →
       tally_ok program e items (foldl (announce_to program e) t rest)
       ∧ ∀ d, d ∈ outbox (foldl (announce_to program e) t rest) →
              to_channel d ≠ 0.
Proof.
  induction rest as [|item rest IH]; intros t Hsub Hok Hnz; simpl; [done|].
  destruct (announce_to_ok program e items t item) as [Hok' Hnz'];
    [apply Hsub; by left|done|].
  apply IH; [|done|].
  - intros it Hit. apply Hsub. by right.
  - intros d Hd. destruct (Hnz' d Hd) as [?|?]; [by apply Hnz|done].
Qed.

Lemma foldl_text_announce_to_ok program e items rest :
  ∀ t, (∀ item, item ∈ rest → item ∈ items) →
       tally_ok program e items t →
       tally_ok program e items (foldl (text_announce_to program e) t rest).
Proof.
  induction rest as [|item rest IH]; intros t Hsub Hok; simpl; [done|].
  apply IH.
  - intros it Hit. apply Hsub. by right.
  - apply text_announce_to_ok; [apply Hsub; by left|done].
Qed.

Lemma no_tally_ok program e items : tally_ok program e items no_tally.
Proof. split; [done|]. by intros d ?%elem_of_nil. Qed.

Lemma tally_after_deliver e t guild_id channel_id :
  (sent_count (deliver_to e t guild_id channel_id)
   + failed_count (deliver_to e t guild_id channel_id)
   ≤ S (sent_count t + failed_count t))%nat
  ∧ ∀ d, d ∈ outbox t → d ∈ outbox (deliver_to e t guild_id channel_id).
Proof.
  destruct (deliver_to_cases e t guild_id channel_id) as [->|[->|[-> _]]];
    simpl; (split; [lia|]); try done.
  intros d Hd. apply elem_of_app. by left.
Qed.

Lemma tally_after_announce_to program e t item :
  (sent_count (announce_to program e t item)
   + failed_count (announce_to program e t item)
   ≤ sent_count t + failed_count t
     + length (filter (λ it : string * server_entry, is_Some (channel it.2))
                 [item]))%nat
  ∧ ∀ d, d ∈ outbox t → d ∈ outbox (announce_to program e t item).
Proof.
  destruct item as [guild_id settings]. unfold Commands.announce_to.
  rewrite filter_cons, filter_nil. cbn [snd].
  destruct (channel settings) as [channel_id|] eqn:Hch.
  - rewrite decide_True by by eexists. cbn [length].
    destruct (channel_id =? 0); [split; [lia|done]|].
    destruct (given program && unsubscribed program settings);
      [split; [lia|done]|].
    destruct (tally_after_deliver e t guild_id channel_id). split; [lia|done].
  - split; [lia|done].
Qed.

Lemma foldl_announce_to_tally program e rest :
  ∀ t,
    (sent_count (foldl (announce_to program e) t rest)
     + failed_count (foldl (announce_to program e) t rest)
     ≤ sent_count t + failed_count t
       + length (filter (λ it : string * server_entry, is_Some (channel it.2))
                   rest))%nat
    ∧ ∀ d, d ∈ outbox t → d ∈ outbox (foldl (announce_to program e) t rest).
Proof.
  induction rest as [|item rest IH]; intros t; simpl.
  - rewrite ?filter_nil. simpl. split; [lia|done].
  - destruct (IH (announce_to program e t item)) as [Hle Hmono].
    destruct (tally_after_announce_to program e t item) as [Hle1 Hmono1].
    rewrite (filter_app _ [item] rest), length_app in *.
    split; [lia|]. intros d Hd. by apply Hmono, Hmono1.
Qed.

Lemma announce_sound author_id message program items d :
  d ∈ (announce author_id message program items).1 →
  author_id = OWNER_ID
  ∧ to_channel d ≠ 0
  ∧ admissible program (announcement_embed message program) items d.
Proof.
  unfold Commands.announce. case_bool_decide as Howner; simpl.
  - by intros ?%elem_of_nil.
  - intros Hd. split; [by destruct (decide (author_id = OWNER_ID))|].
    destruct (foldl_announce_to_ok program (announcement_embed message program)
                items items no_tally) as [[_ Hadm] Hnz].
    + done.
    + apply no_tally_ok.
    + by intros d' ?%elem_of_nil.
    + split; [by apply Hnz|by apply Hadm].
Qed.

(** X16. An announcement is never sent where it should not go.  Every
    message that [/announce] sends is sent for the owner, with the embed of
    the announcement, to the channel that one of the servers has set up
    (never the id 0), on a server that has not unsubscribed from the program
    the announcement is for, and through a channel the bot may send in. *)
Theorem announce_is_targeted (author_id : Z) (message : string)
    (program : option string) (items : list (string * server_entry))
    (d : delivery) :
  d ∈ (announce author_id message program items).1 →
  author_id = OWNER_ID
  ∧ to_channel d ≠ 0
  ∧ admissible program (announcement_embed message program) items d.
Proof. apply announce_sound. Qed.


Lemma announce_to_sends program e t guild_id settings channel_id z g c :
  channel settings = Some channel_id → channel_id ≠ 0 →
  (given program = true → unsubscribed program settings = false) →
  py_int guild_id = Some z → get_guild z = Some g →
  get_channel g channel_id = Some c →
  can_send c = true → send_fails c = false →
  {| to_guild := guild_id; to_channel := channel_id; sent_embed := e |}
  ∈ outbox (announce_to program e t (guild_id, settings)).
Proof.
  intros Hch Hnz Hsub Hz Hg Hc Hcan Hfail. unfold Commands.announce_to.
  rewrite Hch. rewrite (proj2 (Z.eqb_neq _ _) Hnz).
  assert (given program && unsubscribed program settings = false) as ->.
  { destruct (given program); [by rewrite Hsub|done]. }
  unfold Commands.deliver_to. rewrite Hz, Hg, Hc, Hcan, Hfail. simpl.
  apply elem_of_app. right. by apply list_elem_of_singleton.
Qed.

(** X18. An announcement reaches every server it should.  When the owner
    announces, a server that has a channel set up (not the id 0) and has not
    unsubscribed from the program gets the announcement in that channel,
    provided the server and the channel are found, the bot may send there
    and the send goes through. *)
Theorem announce_reaches_subscribers (message : string)
    (program : option string) (items : list (string * server_entry))
    (guild_id : string) (settings : server_entry) (channel_id z : Z)
    (g : guild) (c : discord_channel) :
  (guild_id, settings) ∈ items →
  channel settings = Some channel_id → channel_id ≠ 0 →
  (given program = true → unsubscribed program settings = false) →
  py_int guild_id = Some z → get_guild z = Some g →
  get_channel g channel_id = Some c →
  can_send c = true → send_fails c = false →
  {| to_guild := guild_id; to_channel := channel_id;
     sent_embed := announcement_embed message program |}
  ∈ (announce OWNER_ID message program items).1.
Proof.
  intros Hin Hch Hnz Hsub Hz Hg Hc Hcan Hfail. unfold Commands.announce.
  rewrite bool_decide_false by (by intros []). cbn [fst].
  set (e := announcement_embed message program). generalize no_tally.
  induction items as [|item items IH]; intros t; [by apply elem_of_nil in Hin|].
  simpl. apply elem_of_cons in Hin as [<-|Hin]; [|by apply IH].
  apply (foldl_announce_to_tally program e items).
  by eapply announce_to_sends.
Qed.


Lemma text_announce_to_eq program e t item :
  channel item.2 ≠ Some 0 →
  text_announce_to program e t item = announce_to program e t item.
Proof.
  destruct item as [guild_id settings]. simpl. intros Hnz.
  unfold Commands.text_announce_to, Commands.announce_to.
  destruct (channel settings) as [channel_id|]; [|done].
  destruct (channel_id =? 0) eqn:Hz; [|done].
  apply Z.eqb_eq in Hz as ->. done.
Qed.

Lemma foldl_text_announce_to_eq program e items :
  Forall (λ item : string * server_entry, channel item.2 ≠ Some 0) items →
  ∀ t, foldl (text_announce_to program e) t items
       = foldl (announce_to program e) t items.
Proof.
  induction 1 as [|item items Hitem _ IH]; intros t; simpl; [done|].
  by rewrite text_announce_to_eq, IH.
Qed.

End announce_more.

(** ** The text command [!announce] *)

Section text_more.
Import Monitor Settings Commands.
Variable PROGRAMS : list (string * program_info).
Variable OWNER_ID : Z.
Variable get_guild : Z → option guild.
Variable py_int : string → option Z.
Variable lower : string → string.

Local Abbreviation is_program := (Commands.is_program PROGRAMS).
Local Abbreviation announce :=
  (Commands.announce PROGRAMS OWNER_ID get_guild py_int).
Local Abbreviation announcement_embed := (Commands.announcement_embed PROGRAMS).
Local Abbreviation text_embed := (Commands.text_embed PROGRAMS).
Local Abbreviation parse_announce := (Commands.parse_announce PROGRAMS lower).
Local Abbreviation on_message :=
  (Commands.on_message PROGRAMS OWNER_ID get_guild py_int lower).

Lemma contains_sep_cons sep c s :
  Text.contains (String sep "") (String c s) = false →
  c ≠ sep ∧ Text.contains (String sep "") s = false.
Proof.
  cbn [Text.contains String.prefix].
  intros [Hp Hs]%orb_false_elim. split; [|done].
  intros ->. destruct (Ascii.ascii_dec sep sep); [|done]. by destruct s.
Qed.

Lemma split_at_0 sep s : Text.split_at sep 0 s = [s].
Proof.
  induction s as [|c s IH]; [done|]. cbn [Text.split_at].
  case_decide; [done|]. by rewrite IH.
Qed.

Lemma split_at_nonempty sep n s : (1 ≤ length (Text.split_at sep n s))%nat.
Proof.
  revert n. induction s as [|c s IH]; intros n; cbn [Text.split_at];
    [simpl; lia|].
  case_decide.
  - destruct n; simpl; lia.
  - specialize (IH n). destruct (Text.split_at sep n s); simpl in *; lia.
Qed.

Lemma split_at_word sep n w rest :
  Text.contains (String sep "") w = false →
  Text.split_at sep (S n) (w +:+ String sep rest)
  = w :: Text.split_at sep n rest.
Proof.
  induction w as [|c w IH]; intros Hw.
  - change ("" +:+ String sep rest) with (String sep rest).
    cbn [Text.split_at]. by rewrite decide_True.
  - apply contains_sep_cons in Hw as [Hc Hw].
    change (String c w +:+ String sep rest)
      with (String c (w +:+ String sep rest)).
    cbn [Text.split_at]. rewrite decide_False by done. by rewrite IH.
Qed.

Lemma split_at_no_sep sep n w :
  Text.contains (String sep "") w = false → Text.split_at sep n w = [w].
Proof.
  induction w as [|c w IH]; intros Hw; [done|].
  apply contains_sep_cons in Hw as [Hc Hw].
  cbn [Text.split_at]. rewrite decide_False by done. by rewrite IH.
Qed.

Lemma str_app_assoc (a b c : string) : (a +:+ b) +:+ c = a +:+ (b +:+ c).
Proof.
  induction a as [|x a IH]; [done|].
  change (String x ((a +:+ b) +:+ c) = String x (a +:+ (b +:+ c))).
  by rewrite IH.
Qed.

Lemma str_length_app (a b : string) :
  String.length (a +:+ b) = (String.length a + String.length b)%nat.
Proof.
  induction a as [|x a IH]; [done|].
  change (S (String.length (a +:+ b))
          = S (String.length a + String.length b)).
  by rewrite IH.
Qed.

Lemma str_drop_app a b : Text.str_drop (String.length a) (a +:+ b) = b.
Proof.
  induction a as [|c a IH]; [done|].
  change (Text.str_drop (String.length a) (a +:+ b) = b). apply IH.
Qed.

Lemma parse_announce_program content command parts program_id message :
  parse_announce content command parts = (Some program_id, message) →
  is_program program_id = true.
Proof.
  unfold Commands.parse_announce.
  destruct parts as [|p0 [|p1 [|p2 parts]]]; try done.
  destruct (is_program (lower p1)) eqn:Hp; [|done]. by intros [= <- _].
Qed.

Lemma text_embed_eq message program :
  (∀ p, program = Some p → is_program p = true) →
  text_embed message program = Ok (announcement_embed message program).
Proof.
  intros Hp. unfold Commands.text_embed, Commands.announcement_embed.
  destruct program as [p|]; [|done]. simpl.
  destruct (str_truthy p); [|done].
  specialize (Hp p eq_refl). apply bool_decide_eq_true in Hp.
  apply dict_get_is_Some in Hp as [info ->]. done.
Qed.

(** What [on_message] does with "!<cmd> <rest>" from the owner. *)
Lemma on_message_command cmd rest items :
  Text.contains " " cmd = false →
  lower cmd = "announce" →
  on_message OWNER_ID ("!" +:+ cmd +:+ " " +:+ rest) items
  = (let '(program_id, announce_message) :=
       parse_announce ("!" +:+ cmd +:+ " " +:+ rest) "announce"
         (("!" +:+ cmd) :: Text.split_at Text.space 1 rest) in
     e ← text_embed announce_message program_id;
     let t := foldl (text_announce_to PROGRAMS get_guild py_int program_id e)
                no_tally items in
     Ok (Replied (summary t) (outbox t))).
Proof.
  intros Hcmd Hlower. unfold Commands.on_message.
  rewrite bool_decide_false by (by intros []).
  assert (String.prefix "!" ("!" +:+ cmd +:+ " " +:+ rest) = true) as ->.
  { simpl. by destruct (cmd +:+ _). }
  cbn [negb orb].
  assert (Text.split_at Text.space 2 ("!" +:+ cmd +:+ " " +:+ rest)
          = ("!" +:+ cmd) :: Text.split_at Text.space 1 rest) as ->.
  { change ("!" +:+ cmd +:+ " " +:+ rest)
      with (("!" +:+ cmd) +:+ String Text.space rest).
    apply split_at_word. simpl. exact Hcmd. }
  assert (Text.str_drop 1 ("!" +:+ cmd) = cmd) as -> by done.
  rewrite Hlower. rewrite bool_decide_true by done.
  rewrite bool_decide_false; [done|].
  pose proof (split_at_nonempty Text.space 1 rest). simpl. lia.
Qed.

(** X20. The text command is the slash command.  From the owner, and when no
    server has stored the channel id 0, "!<cmd> <program> <text>" whose
    command lower-cases to "announce" and whose program lower-cases to a key
    of [PROGRAMS] sends what [/announce] sends for that program and text and
    answers the same; "!<cmd> <text>" whose command has the eight characters
    of "announce" and whose first word is no program sends and answers what
    [/announce] does for the whole text and no program. *)
Theorem text_announce_is_announce (items : list (string * server_entry))
    (cmd p msg rest : string) :
  Text.contains " " cmd = false →
  lower cmd = "announce" →
  Forall (λ item : string * server_entry, channel item.2 ≠ Some 0) items →
  (Text.contains " " p = false → is_program (lower p) = true →
   on_message OWNER_ID ("!" +:+ cmd +:+ " " +:+ p +:+ " " +:+ msg) items
   = Ok (Replied (announce OWNER_ID msg (Some (lower p)) items).2
           (announce OWNER_ID msg (Some (lower p)) items).1))
  ∧ (String.length cmd = 8%nat →
     Text.contains " " rest = false
     ∨ (∃ p' msg', rest = p' +:+ " " +:+ msg'
                   ∧ Text.contains " " p' = false
                   ∧ is_program (lower p') = false) →
     on_message OWNER_ID ("!" +:+ cmd +:+ " " +:+ rest) items
     = Ok (Replied (announce OWNER_ID rest None items).2
             (announce OWNER_ID rest None items).1)).
Proof.
  intros Hcmd Hlower Hnz. split.
  - intros Hp Hprog. rewrite on_message_command by done.
    change (p +:+ " " +:+ msg) with (p +:+ String Text.space msg).
    rewrite split_at_word by exact Hp. rewrite split_at_0.
    unfold Commands.parse_announce at 1. rewrite Hprog.
    rewrite text_embed_eq by (by intros ? [= <-]).
    cbn [mbind result_bind]. rewrite foldl_text_announce_to_eq by done.
    unfold Commands.announce. by rewrite bool_decide_false by (by intros []).
  - intros Hlen Hrest. rewrite on_message_command by done.
    assert (parse_announce ("!" +:+ cmd +:+ " " +:+ rest) "announce"
              (("!" +:+ cmd) :: Text.split_at Text.space 1 rest)
            = (None, rest)) as ->.
    { assert (Text.str_drop (String.length "announce" + 2)
                ("!" +:+ cmd +:+ " " +:+ rest) = rest) as Hdrop.
      { rewrite <- !str_app_assoc.
        replace (String.length "announce" + 2)%nat
          with (String.length (("!" +:+ cmd) +:+ " "))
          by (by rewrite !str_length_app, Hlen).
        apply str_drop_app. }
      unfold Commands.parse_announce. rewrite Hdrop.
      destruct Hrest as [Hrest|(p' & msg' & Hsplit & Hp' & Hprog)].
      - by rewrite split_at_no_sep by exact Hrest.
      - rewrite Hsplit at 1.
        change (p' +:+ " " +:+ msg') with (p' +:+ String Text.space msg').
        rewrite split_at_word by exact Hp'. rewrite split_at_0.
        by rewrite Hprog. }
    rewrite text_embed_eq by done.
    cbn [mbind result_bind]. rewrite foldl_text_announce_to_eq by done.
    unfold Commands.announce. by rewrite bool_decide_false by (by intros []).
Qed.

(** X21. [on_message] never raises: the program it looks up in [PROGRAMS]
    is one it has found there.  A message that is not from the owner or does
    not start with "!" is ignored, and "!<cmd>" alone, with a command that
    lower-cases to "announce", is answered with the usage and sends
    nothing. *)
Theorem on_message_never_raises (author_id : Z) (content : string)
    (items : list (string * server_entry)) :
  (∃ outcome, on_message author_id content items = Ok outcome)
  ∧ (author_id ≠ OWNER_ID ∨ String.prefix "!" content = false →
     on_message author_id content items = Ok Ignored)
  ∧ (∀ cmd, author_id = OWNER_ID → content = "!" +:+ cmd →
            Text.contains " " cmd = false → lower cmd = "announce" →
            on_message author_id content items
            = Ok (Replied
                    "Usage: `!announce <message>` or `!announce <program_id> <message>`"
                    [])).
Proof.
  split; [|split].
  - unfold Commands.on_message.
    destruct (_ || _); [by eexists|].
    case_bool_decide; [|by eexists].
    case_bool_decide; [by eexists|].
    destruct (parse_announce content _ _) as [program_id message] eqn:Hparse.
    rewrite text_embed_eq; [by eexists|].
    intros p ->. by eapply parse_announce_program.
  - unfold Commands.on_message. intros [Hauthor|Hprefix].
    + by rewrite bool_decide_true.
    + rewrite Hprefix. by rewrite orb_true_r.
  - intros cmd -> -> Hcmd Hlower. unfold Commands.on_message.
    rewrite bool_decide_false by (by intros []).
    assert (String.prefix "!" ("!" +:+ cmd) = true) as ->.
    { simpl. by destruct cmd. }
    cbn [negb orb].
    rewrite split_at_no_sep.
    + assert (Text.str_drop 1 ("!" +:+ cmd) = cmd) as -> by done.
      rewrite Hlower. rewrite bool_decide_true by done.
      by rewrite bool_decide_true by (simpl; lia).
    + simpl. exact Hcmd.
Qed.

End text_more.

(** ** The webhook: who gets the update script to run *)

Section webhook_more.
Import Webhook.
Variable hmac_sha256_hexdigest : string → string → string.

Local Abbreviation handle_webhook := (Webhook.handle_webhook hmac_sha256_hexdigest).
Local Abbreviation expected_signature :=
  (Webhook.expected_signature hmac_sha256_hexdigest).

Lemma is_ascii_app (a b : string) :
  is_ascii (a +:+ b) = is_ascii a && is_ascii b.
Proof.
  unfold is_ascii. induction a as [|c a IH]; [done|].
  change (String c a +:+ b) with (String c (a +:+ b)).
  cbn [String.list_ascii_of_string forallb]. by rewrite IH, andb_assoc.
Qed.

Lemma expected_signature_truthy req :
  str_truthy (expected_signature req) = true.
Proof. done. Qed.

Lemma expected_signature_ascii req :
  is_ascii (hmac_sha256_hexdigest SECRET (data req)) = true →
  is_ascii (expected_signature req) = true.
Proof.
  intros H. unfold Webhook.expected_signature. by rewrite is_ascii_app, H.
Qed.

(** X22. With a signature of ASCII characters the secret decides: the
    request signed with the expected signature is accepted and the script
    runs; any other signature of ASCII characters, not empty, is answered
    401 and nothing runs.  A signature with a character that is not ASCII
    makes [compare_digest] raise [TypeError]: the handler gives no answer of
    its own and nothing runs. *)
Theorem signature_decides (req : request) (signature : string) :
  is_ascii (hmac_sha256_hexdigest SECRET (data req)) = true →
  signature_header req = Some signature →
  (signature = expected_signature req →
   handle_webhook req = (Reply "OK" 200, [RunUpdateScript]))
  ∧ (str_truthy signature = true → is_ascii signature = true →
     signature ≠ expected_signature req →
     handle_webhook req = (Reply "Unauthorized" 401, []))
  ∧ (is_ascii signature = false →
     handle_webhook req = (Unhandled TypeError, [])).
Proof.
  intros Hascii Hsig. pose proof (expected_signature_ascii req Hascii) as Hexp.
  unfold Webhook.handle_webhook. rewrite Hsig. split; [|split].
  - intros ->. rewrite expected_signature_truthy.
    unfold compare_digest. rewrite Hexp. simpl.
    by rewrite bool_decide_true.
  - intros Ht Ha Hne. rewrite Ht. unfold compare_digest.
    rewrite Ha, Hexp. simpl. by rewrite bool_decide_false.
  - intros Ha.
    assert (str_truthy signature = true) as ->.
    { destruct signature; [done|done]. }
    unfold compare_digest. by rewrite Ha.
Qed.

End webhook_more.

(** ** Sequences of settings commands *)

Section sessions_more.
Import Monitor Settings Sessions.
Variable PROGRAMS : list (string * program_info).

Local Abbreviation subscribed_programs := (Settings.subscribed_programs PROGRAMS).
Local Abbreviation lists_NoDup := (Settings.lists_NoDup PROGRAMS).
Local Abbreviation act := (Sessions.act PROGRAMS).
Local Abbreviation run_handlers := (Sessions.run_handlers PROGRAMS).

Lemma act_lists_NoDup st a :
  lists_NoDup (server_settings st) → lists_NoDup (server_settings (act st a)).
Proof.
  intros Hst. destruct a as [[|] guild channel_id disk_ok
                            |[|] guild custom_id disk_ok];
    unfold Sessions.act; [| done | | done].
  - rewrite settings_after_setup. by apply lists_NoDup_set_channel.
  - rewrite (settings_after_button PROGRAMS). by apply lists_NoDup_toggle.
Qed.

(** X23. No subscription list ever holds a program twice: starting from
    settings without duplicates (the empty store is one), after any sequence
    of [/setup] commands and button presses, by members with or without the
    permission, saved or not, the list read for any server has each program
    at most once. *)
Theorem subscriptions_stay_duplicate_free (actions : list action)
    (st : store) (guild_id : string) :
  NoDup (dict_keys PROGRAMS) →
  (server_settings st = ∅ ∨ lists_NoDup (server_settings st)) →
  NoDup (subscribed_programs (server_settings (run_handlers actions st))
           guild_id).
Proof.
  intros Hnd Hst.
  assert (lists_NoDup (server_settings st)) as Hinv.
  { destruct Hst as [->|?]; [by apply lists_NoDup_empty|done]. }
  clear Hst. revert st Hinv.
  induction actions as [|a actions IH]; intros st Hinv; simpl; [apply Hinv|].
  apply IH. by apply act_lists_NoDup.
Qed.

End sessions_more.

(** ** The text command: where its messages go *)

Section text_targets.
Import Monitor Settings Commands.
Variable PROGRAMS : list (string * program_info).
Variable OWNER_ID : Z.
Variable get_guild : Z → option guild.
Variable py_int : string → option Z.
Variable lower : string → string.

Local Abbreviation is_program := (Commands.is_program PROGRAMS).
Local Abbreviation announcement_embed := (Commands.announcement_embed PROGRAMS).
Local Abbreviation admissible :=
  (Commands.admissible PROGRAMS get_guild py_int).
Local Abbreviation on_message :=
  (Commands.on_message PROGRAMS OWNER_ID get_guild py_int lower).

(** X24. A text announcement is never sent where it should not go: every
    message that [on_message] sends is sent for the owner, to the channel
    that one of the servers has set up, on a server that has not
    unsubscribed from the program of the announcement, which is a key of
    [PROGRAMS] when there is one. *)
Theorem text_announce_is_targeted (author_id : Z) (content text : string)
    (items : list (string * server_entry)) (deliveries : list delivery)
    (d : delivery) :
  on_message author_id content items = Ok (Replied text deliveries) →
  d ∈ deliveries →
  author_id = OWNER_ID
  ∧ ∃ program message,
      (∀ p, program = Some p → is_program p = true)
      ∧ admissible program (announcement_embed message program) items d.
Proof.
  unfold Commands.on_message.
  destruct (bool_decide (author_id ≠ OWNER_ID)) eqn:Howner; [done|].
  apply bool_decide_eq_false in Howner.
  assert (author_id = OWNER_ID) as Hauthor
    by (by destruct (decide (author_id = OWNER_ID))).
  destruct (negb _); [done|]. cbn [orb].
  case_bool_decide; [|done].
  case_bool_decide; [by intros [= _ <-] ?%elem_of_nil|].
  destruct (Commands.parse_announce _ _ _ _ _) as [program message] eqn:Hparse.
  assert (∀ p, program = Some p → is_program p = true) as Hprog.
  { intros p ->. by eapply parse_announce_program. }
  rewrite (text_embed_eq PROGRAMS) by done. cbn [mbind result_bind].
  intros [= _ <-] Hd. split; [done|]. exists program, message.
  split; [done|].
  destruct (foldl_text_announce_to_ok PROGRAMS get_guild py_int program
              (announcement_embed message program) items items no_tally)
    as [_ Hadm]; [done|apply no_tally_ok|]. by apply Hadm.
Qed.

End text_targets.

(** ** The further properties on sample inputs *)

Section samples_more.
Import Monitor Polling Settings View Commands Webhook Quinnbot Samples.

Lemma first_matching_monitor_decides_witness :
  dict_get "quinnflix"
    (program_statuses_of PROGRAMS
       ([("9", JStr "Other")] ++ ("1", JStr "Quinnflix")
          :: [("2", JStr "Quinnflix")])
       [("2", online)])
  = Some offline.
Proof.
  apply (first_matching_monitor_decides PROGRAMS [("9", JStr "Other")]
           [("2", JStr "Quinnflix")] [("2", online)] "1" "quinnflix"
           {| name := "Quinnflix";
              description := "Media streaming & request service";
              emoji := "🎬";
              monitor_name := "Quinnflix" |}).
  - apply PROGRAMS_NoDup.
  - apply list_elem_of_here.
  - intros i n [[= -> ->]|Hin]%elem_of_cons; [done|].
    by apply elem_of_nil in Hin.
  - reflexivity.
Defined.

Lemma directory_entries_are_named_witness :
  NoDup (dict_keys [("1", JStr "Quinnflix");
                    ("2", JStr "Vintage Studio Code");
                    ("3", JStr "Sugarcraft")]).
Proof.
  apply (directory_entries_are_named sample_repr sample_directory
           [("1", JStr "Quinnflix"); ("2", JStr "Vintage Studio Code");
            ("3", JStr "Sugarcraft")]).
  reflexivity.
Defined.


Lemma monitor_without_samples_is_offline_witness :
  dict_get "quinnflix"
    (program_statuses_of PROGRAMS ([] ++ ("1", JStr "Quinnflix") :: []) [])
  = Some offline.
Proof.
  apply (monitor_without_samples_is_offline PROGRAMS no_samples
           [("1", JList [])] [] "1" (JList []) [] [] "quinnflix"
           {| name := "Quinnflix";
              description := "Media streaming & request service";
              emoji := "🎬";
              monitor_name := "Quinnflix" |}).
  - reflexivity.
  - reflexivity.
  - apply list_elem_of_here.
  - reflexivity.
  - apply PROGRAMS_NoDup.
  - apply list_elem_of_here.
  - by intros i n ?%elem_of_nil.
Defined.

Lemma successful_fetch_replaces_cache_witness :
  cached_program_status (tick populated healthy).1
  = cached_program_status (tick initial_state healthy).1.
Proof.
  apply (successful_fetch_replaces_cache PROGRAMS UPTIME_KUMA_URL
           UPTIME_KUMA_STATUS_PAGE_SLUG sample_repr populated initial_state
           healthy); [done|reflexivity].
Defined.

Lemma heartbeat_failure_overwrites_cache_witness :
  cached_program_status (tick populated heartbeat_500).1
  = all_offline PROGRAMS.
Proof.
  apply (heartbeat_failure_overwrites_cache PROGRAMS UPTIME_KUMA_URL
           UPTIME_KUMA_STATUS_PAGE_SLUG sample_repr populated heartbeat_500);
    [done|reflexivity..].
Defined.

Lemma http_error_keeps_cache_witness :
  cached_program_status
    (tick (run_ticks PROGRAMS UPTIME_KUMA_URL UPTIME_KUMA_STATUS_PAGE_SLUG
             sample_repr [healthy] initial_state) directory_503).1
  = cached_program_status
      (run_ticks PROGRAMS UPTIME_KUMA_URL UPTIME_KUMA_STATUS_PAGE_SLUG
         sample_repr [healthy] initial_state).
Proof.
  apply (http_error_keeps_cache PROGRAMS UPTIME_KUMA_URL
           UPTIME_KUMA_STATUS_PAGE_SLUG sample_repr [healthy] directory_503).
  - right. exists 503, None. split; [reflexivity|done].
  - reflexivity.
Defined.

Lemma unconfigured_bot_is_all_offline_witness :
  cached_program_status
    (update_status_loop PROGRAMS "" UPTIME_KUMA_STATUS_PAGE_SLUG sample_repr
       (run_ticks PROGRAMS "" UPTIME_KUMA_STATUS_PAGE_SLUG sample_repr
          [healthy] initial_state) healthy).1
  = all_offline PROGRAMS.
Proof.
  apply (unconfigured_bot_is_all_offline PROGRAMS ""
           UPTIME_KUMA_STATUS_PAGE_SLUG sample_repr [healthy] healthy).
  reflexivity.
Defined.

Lemma presence_follows_cache_witness :
  dict_keys (cached_program_status
               (tick (run_ticks PROGRAMS UPTIME_KUMA_URL
                        UPTIME_KUMA_STATUS_PAGE_SLUG sample_repr
                        [unreachable] initial_state) healthy).1)
  = dict_keys PROGRAMS.
Proof.
  apply (presence_follows_cache PROGRAMS UPTIME_KUMA_URL
           UPTIME_KUMA_STATUS_PAGE_SLUG sample_repr PROGRAMS_NoDup
           [unreachable] healthy).
Defined.

Lemma status_lists_every_program_witness :
  dict_keys (cached_program_status
               (status_command PROGRAMS UPTIME_KUMA_URL
                  UPTIME_KUMA_STATUS_PAGE_SLUG sample_repr
                  (run_ticks PROGRAMS UPTIME_KUMA_URL
                     UPTIME_KUMA_STATUS_PAGE_SLUG sample_repr [] initial_state)
                  unreachable).1)
  = dict_keys PROGRAMS.
Proof.
  apply (status_lists_every_program PROGRAMS UPTIME_KUMA_URL
           UPTIME_KUMA_STATUS_PAGE_SLUG sample_repr PROGRAMS_NoDup
           [] unreachable).
Defined.

Lemma no_settings_NoDup :
  NoDup (subscribed_programs PROGRAMS (server_settings no_settings) (pretty 42)).
Proof.
  unfold subscribed_programs, no_settings. simpl.
  rewrite lookup_empty. apply PROGRAMS_NoDup.
Qed.

Lemma toggle_flips_one_program_witness :
  NoDup (subscribed_programs PROGRAMS
           (server_settings
              (button_callback PROGRAMS true 42 "prog_toggle_quinnflix" true
                 no_settings).1)
           (pretty 42)).
Proof.
  apply (toggle_flips_one_program PROGRAMS no_settings 42
           "prog_toggle_quinnflix" true).
  apply no_settings_NoDup.
Defined.

Lemma handlers_change_one_field_witness :
  subscribed_programs PROGRAMS
    (server_settings (setup true 42 7 true no_settings).1) (pretty 43)
  = subscribed_programs PROGRAMS (server_settings no_settings) (pretty 43).
Proof.
  exact (proj1 (handlers_change_one_field PROGRAMS no_settings 42 43 7
                  "prog_toggle_quinnflix" true)).
Defined.

Lemma button_id_gives_program_back_witness :
  str_remove "prog_toggle_" ("prog_toggle_" +:+ "quinnflix") = "quinnflix".
Proof.
  apply (button_id_gives_program_back "prog_toggle_" "quinnflix").
  reflexivity.
Defined.

Lemma PROGRAMS_plain_ids : plain_ids PROGRAMS.
Proof. unfold plain_ids, PROGRAMS. by repeat constructor. Qed.

Lemma view_shows_subscriptions_witness :
  shows PROGRAMS (ProgramSelectView PROGRAMS 42 (server_settings no_settings))
    (server_settings no_settings).
Proof.
  apply (view_shows_subscriptions PROGRAMS PROGRAMS_plain_ids).
Defined.

Lemma welcome_goes_where_bot_may_send_witness :
  welcome_target sample_guild = Some (open_channel 7).
Proof.
  apply (welcome_goes_where_bot_may_send sample_guild)
    with (pre := [closed_channel 6]) (post := [open_channel 8]).
  - by intros s [= <-].
  - reflexivity.
  - by repeat constructor.
  - reflexivity.
Defined.

Lemma announce_is_targeted_witness :
  to_channel
    {| to_guild := "42"; to_channel := 7;
       sent_embed := announcement_embed PROGRAMS "hello" None |} ≠ 0.
Proof.
  apply (announce_is_targeted PROGRAMS OWNER_ID sample_get_guild sample_py_int
           OWNER_ID "hello" None one_item).
  vm_compute. apply list_elem_of_here.
Defined.


Lemma announce_reaches_subscribers_witness :
  {| to_guild := "42"; to_channel := 7;
     sent_embed := announcement_embed PROGRAMS "hello" (Some "quinnflix") |}
  ∈ (announce PROGRAMS OWNER_ID sample_get_guild sample_py_int
       OWNER_ID "hello" (Some "quinnflix") one_item).1.
Proof.
  apply (announce_reaches_subscribers PROGRAMS OWNER_ID sample_get_guild
           sample_py_int "hello" (Some "quinnflix") one_item "42"
           {| channel := Some 7; programs := None |} 7 42 sample_guild
           (open_channel 7)).
  - apply list_elem_of_here.
  - reflexivity.
  - done.
  - reflexivity.
  - reflexivity.
  - reflexivity.
  - reflexivity.
  - reflexivity.
  - reflexivity.
Defined.



Lemma text_announce_is_announce_witness :
  on_message PROGRAMS OWNER_ID sample_get_guild sample_py_int sample_lower
    OWNER_ID ("!" +:+ "announce" +:+ " " +:+ "quinnflix" +:+ " " +:+ "hello")
    one_item
  = Ok (Replied
          (announce PROGRAMS OWNER_ID sample_get_guild sample_py_int
             OWNER_ID "hello" (Some (sample_lower "quinnflix")) one_item).2
          (announce PROGRAMS OWNER_ID sample_get_guild sample_py_int
             OWNER_ID "hello" (Some (sample_lower "quinnflix")) one_item).1).
Proof.
  apply (text_announce_is_announce PROGRAMS OWNER_ID sample_get_guild
           sample_py_int sample_lower one_item "announce" "quinnflix" "hello"
           "hello").
  - reflexivity.
  - reflexivity.
  - by repeat constructor.
  - reflexivity.
  - reflexivity.
Defined.

Lemma on_message_never_raises_witness :
  on_message PROGRAMS OWNER_ID sample_get_guild sample_py_int sample_lower
    OWNER_ID "!announce" one_item
  = Ok (Replied
          "Usage: `!announce <message>` or `!announce <program_id> <message>`"
          []).
Proof.
  apply (on_message_never_raises PROGRAMS OWNER_ID sample_get_guild
           sample_py_int sample_lower OWNER_ID "!announce" one_item)
    with (cmd := "announce"); reflexivity.
Defined.

Lemma signature_decides_witness :
  handle_webhook sample_hmac signed_request
  = (Reply "OK" 200, [RunUpdateScript]).
Proof.
  apply (signature_decides sample_hmac signed_request "sha256=00");
    reflexivity.
Defined.

Lemma subscriptions_stay_duplicate_free_witness :
  NoDup (subscribed_programs PROGRAMS
           (server_settings
              (Sessions.run_handlers PROGRAMS sample_session no_settings))
           "42").
Proof.
  apply (subscriptions_stay_duplicate_free PROGRAMS sample_session
           no_settings "42").
  - apply PROGRAMS_NoDup.
  - by left.
Defined.

Lemma text_announce_is_targeted_witness :
  OWNER_ID = OWNER_ID
  ∧ ∃ program message,
      (∀ p, program = Some p → is_program PROGRAMS p = true)
      ∧ admissible PROGRAMS sample_get_guild sample_py_int program
          (announcement_embed PROGRAMS message program) one_item
          {| to_guild := "42"; to_channel := 7;
             sent_embed := announcement_embed PROGRAMS "hello" None |}.
Proof.
  apply (text_announce_is_targeted PROGRAMS OWNER_ID sample_get_guild
           sample_py_int sample_lower OWNER_ID "!announce hello"
           "✅ Announcement sent to 1 servers. (0 failures.)" one_item
           [{| to_guild := "42"; to_channel := 7;
               sent_embed := announcement_embed PROGRAMS "hello" None |}]).
  - reflexivity.
  - apply list_elem_of_here.
Defined.

End samples_more.
